(** * Request batching middleware of api-fetch

    A shallow embedding of the batching middleware
    ([batchRequestMiddleware], [endpointSupportsBatch], [addRequestToBatch],
    [commitEventually], [commit]) and the properties of its registry of
    awaiting batches, its timers and the combined requests it issues.

    JavaScript strings are sequences of UTF-16 code units, objects that are
    built by the module are association lists of properties, the module
    level registry [awaitingBatches] is a finite map from batch ids to
    batches, and the event loop is a sequence of events (a call of the
    middleware, a timer that expires, the transport settling a call). *)

From Stdlib Require Import NArith ZArith Ascii String List Lia DecimalString.
From stdpp Require Import gmap strings list.

Set Warnings "-register-all".
Open Scope N_scope.

(** ** JavaScript strings *)

(** A string value: its UTF-16 code units. *)
Abbreviation jsstring := (list N).

(** The code units of an ASCII literal of the source. *)
Definition js (s : string) : jsstring :=
  map N_of_ascii (list_ascii_of_string s).

(** [a.startsWith(b)] on code units, used by [indexOf]. *)
Fixpoint startsWith (needle hay : jsstring) : bool :=
  match needle, hay with
  | [], _ => true
  | _ :: _, [] => false
  | a :: needle', b :: hay' => (a =? b) && startsWith needle' hay'
  end.

(** [hay.indexOf(needle)] searching from position [i] of the original
    string; -1 when there is no occurrence. *)
Fixpoint indexOfFrom (needle hay : jsstring) (i : Z) : Z :=
  if startsWith needle hay then i
  else match hay with
       | [] => (-1)%Z
       | _ :: hay' => indexOfFrom needle hay' (i + 1)%Z
       end.

Definition indexOf (hay needle : jsstring) : Z := indexOfFrom needle hay 0%Z.

(** ** JSON.stringify on strings

    Strings follow QuoteJSONString: the two-character escapes, [\uXXXX]
    for the other control characters and for lone surrogates, every other
    code unit as it is.  [JSON_stringify] is the text of an array of two
    elements, each a string or [undefined] (which an array serialises as
    [null]): the batch id of a request whose grouping tag is a string. *)

Definition hexDigit (d : N) : N := if d <? 10 then 48 + d else 87 + d.

Definition unicodeEscape (c : N) : jsstring :=
  [92; 117; hexDigit (c / 4096 mod 16); hexDigit (c / 256 mod 16);
   hexDigit (c / 16 mod 16); hexDigit (c mod 16)].

Definition isLeadingSurrogate (c : N) : bool := (55296 <=? c) && (c <=? 56319).
Definition isTrailingSurrogate (c : N) : bool := (56320 <=? c) && (c <=? 57343).

(** A code unit that is not part of a surrogate pair. *)
Definition quoteUnit (c : N) : jsstring :=
  if c =? 8 then [92; 98]
  else if c =? 9 then [92; 116]
  else if c =? 10 then [92; 110]
  else if c =? 12 then [92; 102]
  else if c =? 13 then [92; 114]
  else if c =? 34 then [92; 34]
  else if c =? 92 then [92; 92]
  else if (c <? 32) || isLeadingSurrogate c || isTrailingSurrogate c
       then unicodeEscape c
       else [c].

Fixpoint quoteUnits (s : jsstring) : jsstring :=
  match s with
  | [] => []
  | c :: rest =>
      if isLeadingSurrogate c then
        match rest with
        | d :: rest' =>
            if isTrailingSurrogate d then c :: d :: quoteUnits rest'
            else unicodeEscape c ++ quoteUnits rest
        | [] => unicodeEscape c
        end
      else quoteUnit c ++ quoteUnits rest
  end.

Definition QuoteJSONString (s : jsstring) : jsstring :=
  34 :: quoteUnits s ++ [34].

(** An element of the array: [undefined] becomes [null]. *)
Definition stringifyElement (v : option jsstring) : jsstring :=
  match v with
  | None => js "null"
  | Some s => QuoteJSONString s
  end.

(** [JSON.stringify([ a, b ])]. *)
Definition JSON_stringify (a b : option jsstring) : jsstring :=
  91 :: stringifyElement a ++ 44 :: stringifyElement b ++ [93].

(** A reader of quoted strings, the inverse of [quoteUnits] up to the
    closing quote; it exists for the proof that batch ids do not collide. *)
Definition unhexDigit (h : N) : option N :=
  if (48 <=? h) && (h <=? 57) then Some (h - 48)
  else if (97 <=? h) && (h <=? 102) then Some (h - 87)
  else None.

Definition unhex4 (a b c d : N) : option N :=
  match unhexDigit a, unhexDigit b, unhexDigit c, unhexDigit d with
  | Some x3, Some x2, Some x1, Some x0 =>
      Some (4096 * x3 + 256 * x2 + 16 * x1 + x0)
  | _, _, _, _ => None
  end.

Definition unescapeUnit (e : N) : option N :=
  if e =? 98 then Some 8
  else if e =? 116 then Some 9
  else if e =? 110 then Some 10
  else if e =? 102 then Some 12
  else if e =? 114 then Some 13
  else if e =? 34 then Some 34
  else if e =? 92 then Some 92
  else None.

Definition consUnit (c : option N) (r : option (jsstring * jsstring))
  : option (jsstring * jsstring) :=
  match c, r with
  | Some u, Some (s, rest) => Some (u :: s, rest)
  | _, _ => None
  end.

Fixpoint readQuoted (l : jsstring) : option (jsstring * jsstring) :=
  match l with
  | [] => None
  | c :: l1 =>
      if c =? 34 then Some ([], l1)
      else if c =? 92 then
        match l1 with
        | [] => None
        | e :: l2 =>
            if e =? 117 then
              match l2 with
              | a :: b :: c' :: d :: l3 =>
                  consUnit (unhex4 a b c' d) (readQuoted l3)
              | _ => None
              end
            else consUnit (unescapeUnit e) (readQuoted l2)
        end
      else consUnit (Some c) (readQuoted l1)
  end.

(** ** Values, requests and the objects sent to the transport *)

(** The values that request bodies, headers and responses are made of.
    An object is the list of its own properties in creation order. *)
Inductive JSVal :=
| VUndefined
| VNull
| VBool (b : bool)
| VNum (n : Z)
| VStr (s : jsstring)
| VArr (items : list JSVal)
| VObj (props : list (string * JSVal)).

(** [obj.name]: the first property of that name, [undefined] when the
    object has none or the value is not an object. *)
Fixpoint lookupProp (name : string) (props : list (string * JSVal)) : JSVal :=
  match props with
  | [] => VUndefined
  | (k, v) :: props' => if String.eqb k name then v else lookupProp name props'
  end.

Definition getProp (v : JSVal) (name : string) : JSVal :=
  match v with
  | VObj props => lookupProp name props
  | _ => VUndefined
  end.

(** [Object.keys(v)]. *)
Definition ownKeys (v : JSVal) : list string :=
  match v with
  | VObj props => map fst props
  | _ => []
  end.

(** A string property that may be missing. *)
Definition ofOptString (v : option jsstring) : JSVal :=
  match v with
  | None => VUndefined
  | Some s => VStr s
  end.

(** Truthiness of a value: [undefined], [null], [false], 0 and the empty
    string are falsy, every other value is truthy, objects and arrays
    included. *)
Definition truthyValue (v : JSVal) : bool :=
  match v with
  | VUndefined | VNull => false
  | VBool b => b
  | VNum n => negb (n =? 0)%Z
  | VStr s => match s with [] => false | _ :: _ => true end
  | VArr _ | VObj _ => true
  end.

(** [String( n )] of an integer: its decimal digits, with a minus sign
    before them when it is negative. *)
Definition numberToString (n : Z) : jsstring :=
  js (NilZero.string_of_int (Z.to_int n)).

(** [texts.join( ',' )] on the serialised elements of an array or members
    of an object. *)
Fixpoint joinComma (texts : list jsstring) : jsstring :=
  match texts with
  | [] => []
  | [t] => t
  | t :: rest => t ++ 44 :: joinComma rest
  end.

(** [JSON.stringify( v )] on values (SerializeJSONProperty): [None] is the
    result [undefined].  In an array an element that serialises to
    [undefined] is written [null]; in an object a property whose value
    serialises to [undefined] is left out. *)
Fixpoint stringifyValue (v : JSVal) : option jsstring :=
  match v with
  | VUndefined => None
  | VNull => Some (js "null")
  | VBool true => Some (js "true")
  | VBool false => Some (js "false")
  | VNum n => Some (numberToString n)
  | VStr s => Some (QuoteJSONString s)
  | VArr items =>
      Some (91 :: joinComma
                    (List.map
                       (fun item =>
                          match stringifyValue item with
                          | Some text => text
                          | None => js "null"
                          end)
                       items)
               ++ [93])
  | VObj props =>
      Some (123 :: joinComma
                     ((fix members (ps : list (string * JSVal))
                         : list jsstring :=
                         match ps with
                         | [] => []
                         | (key, value) :: ps' =>
                             match stringifyValue value with
                             | Some text =>
                                 (QuoteJSONString (js key) ++ 58 :: text)
                                   :: members ps'
                             | None => members ps'
                             end
                         end) props)
                ++ [125])
  end.

(** The fetch options handed to the middleware.  [method] and [path] are
    strings or missing ([None] is [undefined]); [batchAs] is whatever value
    the caller gives as grouping tag, [VUndefined] when it gives none;
    [others] are the remaining properties of the options object (data, url,
    parse, ...), which the middleware never reads. *)
Record Options := mkOptions {
  method : option jsstring;
  batchAs : JSVal;
  path : option jsstring;
  body : JSVal;
  headers : JSVal;
  others : list (string * JSVal)
}.

(** What a throw statement or a failing operation raises. *)
Inductive Exn :=
| TypeError
| Thrown (v : JSVal).

(** The completion of a call: a value or an exception. *)
Inductive Completion (A : Type) :=
| Normal (a : A)
| Throw (e : Exn).
Arguments Normal {A} a.
Arguments Throw {A} e.

(** The state of a promise. *)
Inductive Settled (A : Type) :=
| Pending
| Fulfilled (a : A)
| Rejected (reason : JSVal).
Arguments Pending {A}.
Arguments Fulfilled {A} a.
Arguments Rejected {A} reason.

(** The promises the module creates or receives: the one made in
    [commitEventually], named after the timer its executor starts, and the
    one returned by the k-th call of [apiFetch]. *)
Inductive Promise :=
| PTimer (t : nat)
| PFetch (k : nat).

(** [{ promise, requests }], an entry of [awaitingBatches]. *)
Record Batch := mkBatch {
  promise : option Promise;
  requests : list Options
}.

(** A timer started by [setTimeout( () => resolve( commit( batchId ) ),
    BATCH_TIME_WINDOW )]: waiting with its delay and the batch id its
    callback closes over, cleared, or run.  A callback that ran either
    resolved its promise with the promise [commit] returned, or threw before
    [resolve] was reached, which leaves its promise pending for ever. *)
Inductive Timer :=
| Scheduled (delay : Z) (batchId : jsstring)
| Cleared
| Ran (resolvedWith : option nat).

(** A call of [apiFetch]: its argument and the state of the promise it
    returned. *)
Record Fetch := mkFetch {
  request : JSVal;
  outcome : Settled (list JSVal)
}.

(** What the middleware returns: whatever the next handler returned, or
    [save( batchId ).then( ( subResponses ) => subResponses[ requestIdx ] )]. *)
Inductive Result (R : Type) :=
| FromNext (r : R)
| Demux (p : Promise) (requestIdx : nat).
Arguments FromNext {R} r.
Arguments Demux {R} p requestIdx.

Definition BATCH_TIME_WINDOW : Z := 1000.
Definition MAX_BATCH_SIZE : nat := 20.

(** [[ 'POST', 'PUT', 'PATCH', 'DELETE' ]]. *)
Definition batchMethods : list jsstring :=
  [js "POST"; js "PUT"; js "PATCH"; js "DELETE"].

(** [list.includes( v )] for a string or [undefined]. *)
Definition includes (l : list jsstring) (v : option jsstring) : bool :=
  match v with
  | None => false
  | Some s => bool_decide (s ∈ l)
  end.

(** Truthiness of a string or [undefined]: only the empty string and
    [undefined] are falsy. *)
Definition truthy (v : option jsstring) : bool :=
  match v with
  | None | Some [] => false
  | Some (_ :: _) => true
  end.

Definition endpointSupportsBatch (path : jsstring) : bool :=
  negb (indexOf path (js "/v2/template-parts") =? -1)%Z.

(** The condition of the [if] that opens [batchRequestMiddleware], with
    its short-circuit evaluation: [options.path.indexOf] is only reached
    for a batch method and a truthy [batchAs], and raises a TypeError when
    [path] is [undefined]. *)
Definition bypasses (options : Options) : Completion bool :=
  if negb (includes batchMethods (method options)) then Normal true
  else if negb (truthyValue (batchAs options)) then Normal true
  else match path options with
       | None => Throw TypeError
       | Some p => Normal (negb (endpointSupportsBatch p))
       end.

(** [JSON.stringify( [ options.batchAs, options.method ] )]; an array
    always serialises to a string. *)
Definition batchIdOf (options : Options) : jsstring :=
  match stringifyValue (VArr [batchAs options; ofOptString (method options)])
  with
  | Some text => text
  | None => []
  end.

(** [{ path: options.path, body: options.body, headers: options.headers }]. *)
Definition projectRequest (options : Options) : JSVal :=
  VObj [("path"%string, ofOptString (path options));
        ("body"%string, body options);
        ("headers"%string, headers options)].

(** The argument of [apiFetch] in [commit]. *)
Definition batchCall (requests : list JSVal) : JSVal :=
  VObj [("path"%string, VStr (js "/wp/__experimental/batch"));
        ("method"%string, VStr (js "POST"));
        ("data"%string,
          VObj [("validation"%string, VStr (js "require-all-validate"));
                ("requests"%string, VArr requests)])].

(** ** The module state and the event loop *)

Section Model.

(** [D] is the state of the rest of the middleware chain, [R] what the next
    handler returns. *)
Context {D R : Type}.

(** The state the module works on: the registry [awaitingBatches], the
    timers it has started (a timer id is a position in [timers]), the calls
    of [apiFetch] it has made, and the state of the handlers after it. *)
Record World := mkWorld {
  awaitingBatches : gmap jsstring Batch;
  timers : list Timer;
  transport : list Fetch;
  downstream : D
}.

(** Computations over the module state that may throw. *)
Definition M (A : Type) : Type := World -> Completion A * World.

Definition ret {A} (a : A) : M A := fun w => (Normal a, w).

Definition throw {A} (e : Exn) : M A := fun w => (Throw e, w).

Definition bind {A B} (c : M A) (k : A -> M B) : M B :=
  fun w =>
    match c w with
    | (Normal a, w') => k a w'
    | (Throw e, w') => (Throw e, w')
    end.

Notation "'let!' x ':=' c 'in' k" := (bind c (fun x => k))
  (at level 10, x name, c at level 100, k at level 200).
Notation "c ';;' k" := (bind c (fun _ => k))
  (at level 100, k at level 200, right associativity).

(** The next handler of the chain: it sees the options and its own state,
    never the module's. *)
Definition Handler : Type := Options -> D -> Completion R * D.

Definition callNext (next : Handler) (options : Options) : M R :=
  fun w =>
    let (c, d) := next options (downstream w) in
    (c, mkWorld (awaitingBatches w) (timers w) (transport w) d).

(** [awaitingBatches[ batchId ]] for the batch ids that the middleware
    computes: they begin with a bracket, so the lookup finds a batch that
    was stored under the id or nothing, never a property that the registry
    object inherits. *)
Definition readBatch (batchId : jsstring) : M (option Batch) :=
  fun w => (Normal (awaitingBatches w !! batchId), w).

(** [awaitingBatches[ batchId ] = batch], also the effect of assigning to a
    property of the batch object that the registry holds. *)
Definition writeBatch (batchId : jsstring) (batch : Batch) : M unit :=
  fun w =>
    (Normal tt,
     mkWorld (<[batchId := batch]> (awaitingBatches w))
             (timers w) (transport w) (downstream w)).

(** [delete awaitingBatches[ batchId ]]. *)
Definition deleteBatch (batchId : jsstring) : M unit :=
  fun w =>
    (Normal tt,
     mkWorld (delete batchId (awaitingBatches w))
             (timers w) (transport w) (downstream w)).

(** [setTimeout( () => resolve( commit( batchId ) ), delay )]: the new
    timer's id. *)
Definition setTimeout (delay : Z) (batchId : jsstring) : M nat :=
  fun w =>
    (Normal (length (timers w)),
     mkWorld (awaitingBatches w) (timers w ++ [Scheduled delay batchId])
             (transport w) (downstream w)).

(** What [clearTimeout] can be given: the id [setTimeout] returned, or a
    value that is no timer id. *)
Inductive TimeoutArg :=
| ATimerId (t : nat)
| APromise (p : option Promise).

(** [clearTimeout( arg )] cancels the waiting timer with that id; for a
    promise or [null] it does nothing. *)
Definition clearTimeout (arg : TimeoutArg) : M unit :=
  fun w =>
    match arg with
    | ATimerId t =>
        match timers w !! t with
        | Some (Scheduled _ _) =>
            (Normal tt,
             mkWorld (awaitingBatches w) (<[t := Cleared]> (timers w))
                     (transport w) (downstream w))
        | _ => (Normal tt, w)
        end
    | APromise _ => (Normal tt, w)
    end.

(** Modelled from the spec: [apiFetch], imported from the index of the
    package, stands for the transport [send( combinedRequest )], which
    answers with a promise of the list of responses.  The call is recorded
    with its argument; its promise, the one of call number
    [length (transport w)], is pending until the transport settles it. *)
Definition apiFetch (arg : JSVal) : M nat :=
  fun w =>
    (Normal (length (transport w)),
     mkWorld (awaitingBatches w) (timers w)
             (transport w ++ [mkFetch arg Pending]) (downstream w)).

Definition addRequestToBatch (batchId : jsstring) (options : Options) : M nat :=
  let! existing := readBatch batchId in
  (match existing with
   | None => writeBatch batchId (mkBatch None [])
   | Some _ => ret tt
   end);;
  let! batch := readBatch batchId in
  match batch with
  | None => throw TypeError
  | Some b =>
      writeBatch batchId (mkBatch (promise b) (requests b ++ [options]));;
      let! batch' := readBatch batchId in
      match batch' with
      | None => throw TypeError
      | Some b' => ret (length (requests b') - 1)%nat
      end
  end.

Definition commitEventually (batchId : jsstring) : M Promise :=
  let! batch := readBatch batchId in
  match batch with
  | None => throw TypeError
  | Some b =>
      match promise b with
      | Some p => ret p
      | None =>
          let! t := setTimeout BATCH_TIME_WINDOW batchId in
          writeBatch batchId (mkBatch (Some (PTimer t)) (requests b));;
          ret (PTimer t)
      end
  end.

(** The body of [commit], over the function it calls to send the combined
    request.  [send] stands for the imported [apiFetch]: code outside the
    module, which runs in the state it is called in and may look at the
    registry or hand further requests to the middleware before it
    returns. *)
Definition commitVia (send : JSVal -> M nat) (batchId : jsstring) : M nat :=
  let! unitOfWork := readBatch batchId in
  deleteBatch batchId;;
  match unitOfWork with
  | None => throw TypeError
  | Some u =>
      clearTimeout (APromise (promise u));;
      let requests := map projectRequest (requests u) in
      send (batchCall requests)
  end.

(** [commit] returns the promise of the [apiFetch] call it makes, given by
    the number of that call. *)
Definition commit (batchId : jsstring) : M nat :=
  commitVia apiFetch batchId.

Definition batchRequestMiddleware (options : Options) (next : Handler)
  : M (Result R) :=
  let! skip := (fun w => (bypasses options, w)) in
  if (skip : bool) then
    let! r := callNext next options in ret (FromNext r)
  else
    let batchId := batchIdOf options in
    let! requestIdx := addRequestToBatch batchId options in
    let save :=
      if (MAX_BATCH_SIZE <=? requestIdx + 1)%nat
      then (let! k := commit batchId in ret (PFetch k))
      else commitEventually batchId in
    let! p := save in
    ret (Demux p requestIdx).

(** The callback of timer [t] runs: [resolve( commit( batchId ) )].  An
    exception in the callback is not caught by anything; the promise is
    then never resolved. *)
Definition expire (t : nat) (w : World) : World :=
  match timers w !! t with
  | Some (Scheduled _ batchId) =>
      let (c, w') := commit batchId w in
      let r := match c with Normal k => Some k | Throw _ => None end in
      mkWorld (awaitingBatches w') (<[t := Ran r]> (timers w'))
              (transport w') (downstream w')
  | _ => w
  end.

(** Modelled from the spec: the transport settles the promise of call [k],
    fulfilling it with a list of responses or rejecting it; a promise
    settles once. *)
Definition settle (k : nat) (o : Settled (list JSVal)) (w : World) : World :=
  match transport w !! k with
  | Some (mkFetch arg Pending) =>
      mkWorld (awaitingBatches w) (timers w)
              (<[k := mkFetch arg o]> (transport w)) (downstream w)
  | _ => w
  end.

Inductive Event :=
| Call (options : Options)
| Expire (t : nat)
| Fulfil (k : nat) (subResponses : list JSVal)
| Reject (k : nat) (reason : JSVal).

Definition step (next : Handler) (ev : Event) (w : World) : World :=
  match ev with
  | Call options => snd (batchRequestMiddleware options next w)
  | Expire t => expire t w
  | Fulfil k subResponses => settle k (Fulfilled subResponses) w
  | Reject k reason => settle k (Rejected reason) w
  end.

Definition run (next : Handler) (evs : list Event) (w : World) : World :=
  fold_left (fun w ev => step next ev w) evs w.

(** The middleware called on each request in turn: what each call
    returned, and the state after the last. *)
Fixpoint submitAll (next : Handler) (rs : list Options) (w : World)
  : list (Completion (Result R)) * World :=
  match rs with
  | [] => ([], w)
  | options :: rs' =>
      let (c, w1) := batchRequestMiddleware options next w in
      let (cs, w2) := submitAll next rs' w1 in
      (c :: cs, w2)
  end.

(** ** Settlement of the promises *)

Definition fetchState (w : World) (k : nat) : Settled (list JSVal) :=
  match transport w !! k with
  | Some f => outcome f
  | None => Pending
  end.

(** The promise of [commitEventually] follows the promise its timer
    callback resolved it with. *)
Definition promiseState (w : World) (p : Promise) : Settled (list JSVal) :=
  match p with
  | PFetch k => fetchState w k
  | PTimer t =>
      match timers w !! t with
      | Some (Ran (Some k)) => fetchState w k
      | _ => Pending
      end
  end.

(** [p.then( ( subResponses ) => subResponses[ requestIdx ] )]: an index
    out of range reads [undefined]. *)
Definition demuxState (w : World) (p : Promise) (requestIdx : nat)
  : Settled JSVal :=
  match promiseState w p with
  | Pending => Pending
  | Fulfilled subResponses => Fulfilled (nth requestIdx subResponses VUndefined)
  | Rejected reason => Rejected reason
  end.

(** The state of what a call of the middleware returned, when that is the
    promise of a batched request. *)
Definition callerState (w : World) (c : Completion (Result R))
  : option (Settled JSVal) :=
  match c with
  | Normal (Demux p requestIdx) => Some (demuxState w p requestIdx)
  | _ => None
  end.

(** No batch is awaiting under [batchId] and no waiting timer will commit
    that id. *)
Definition waitsFor (batchId : jsstring) (tm : Timer) : bool :=
  match tm with
  | Scheduled _ b => bool_decide (b = batchId)
  | _ => false
  end.

Definition quiet (batchId : jsstring) (w : World) : bool :=
  match awaitingBatches w !! batchId with
  | None => forallb (fun tm => negb (waitsFor batchId tm)) (timers w)
  | Some _ => false
  end.

End Model.

Arguments World D : clear implicits.
Arguments M D A : clear implicits.
Arguments Handler D R : clear implicits.

(** The requests and the promise of the batch awaiting under [batchId];
    none when there is no such batch. *)
Definition pendingRequests {D : Type} (w : World D) (batchId : jsstring)
  : list Options :=
  match awaitingBatches w !! batchId with
  | Some b => requests b
  | None => []
  end.

Definition pendingPromise {D : Type} (w : World D) (batchId : jsstring)
  : option Promise :=
  match awaitingBatches w !! batchId with
  | Some b => promise b
  | None => None
  end.

(** What [next] makes of a request that is passed on. *)
Definition forwarded {D R : Type} (next : Handler D R) (options : Options)
  (w : World D) : Completion (Result R) * World D :=
  (match fst (next options (downstream w)) with
   | Normal r => Normal (FromNext r)
   | Throw e => Throw e
   end,
   mkWorld (awaitingBatches w) (timers w) (transport w)
           (snd (next options (downstream w)))).

(** A next handler that keeps the list of the options it was called with
    and answers what [respond] says. *)
Definition recordingHandler {R : Type} (respond : Options -> Completion R)
  : Handler (list Options) R :=
  fun options log => (respond options, log ++ [options]).

(** The state of a freshly loaded module. *)
Definition freshWorld {D : Type} (d : D) : World D := mkWorld ∅ [] [] d.

(** A request that is batched: a batch method, a grouping tag and a path of
    the template parts endpoint. *)
Definition batchable (options : Options) : Prop :=
  bypasses options = Normal false.

(** Requests that belong to the batch [batchId]. *)
Definition allFor (batchId : jsstring) (rs : list Options) : Prop :=
  Forall (fun options => batchable options ∧ batchIdOf options = batchId) rs.

(** The window of the batch [batchId] is open: its requests [rs] await
    with the promise of timer [t], and that timer is waiting. *)
Definition windowOpen {D : Type} (batchId : jsstring) (t : nat)
  (rs : list Options) (w : World D) : Prop :=
  awaitingBatches w !! batchId = Some (mkBatch (Some (PTimer t)) rs)
  /\ timers w !! t = Some (Scheduled BATCH_TIME_WINDOW batchId).

(** An event that is none of the window's: a call that is not a batched
    request for [batchId], the expiry of a timer that is not waiting for
    [batchId], or the transport settling a call. *)
Definition foreign {D : Type} (batchId : jsstring) (w : World D) (ev : Event)
  : Prop :=
  match ev with
  | Call options => batchable options -> batchIdOf options <> batchId
  | Expire t =>
      forall delay, timers w !! t <> Some (Scheduled delay batchId)
  | Fulfil _ _ | Reject _ _ => True
  end.

(** The requests used in the examples: [POST]s to a template part, grouped
    as [g1], that differ in their body. *)
Definition sampleRequest (n : nat) : Options :=
  mkOptions (Some (js "POST")) (VStr (js "g1"))
            (Some (js "/wp/v2/template-parts/7"))
            (VNum (Z.of_nat n)) (VObj [])
            [("data"%string, VNum (Z.of_nat n))].

Definition sampleRequests (n : nat) : list Options :=
  map sampleRequest (seq 0 n).

(** Requests that are not batched: no method, and no grouping tag. *)
Definition plainRequest : Options :=
  mkOptions None VUndefined (Some (js "/wp/v2/posts")) VUndefined VUndefined
            [].

Definition untaggedRequest : Options :=
  mkOptions (Some (js "POST")) VUndefined
            (Some (js "/wp/v2/template-parts/7"))
            VNull VUndefined [].

(** Two requests whose grouping tags are objects: [{}] and
    [{ a: undefined }]. *)
Definition emptyObjectTagRequest : Options :=
  mkOptions (Some (js "POST")) (VObj [])
            (Some (js "/wp/v2/template-parts/7")) (VNum 1) VUndefined [].

Definition undefinedPropertyTagRequest : Options :=
  mkOptions (Some (js "POST")) (VObj [("a"%string, VUndefined)])
            (Some (js "/wp/v2/template-parts/7")) (VNum 2) VUndefined [].

(** A request of another group. *)
Definition otherGroupRequest : Options :=
  mkOptions (Some (js "POST")) (VStr (js "g2"))
            (Some (js "/wp/v2/template-parts/7")) VNull VUndefined [].

(** A next handler for the examples. *)
Definition sampleNext : Handler (list Options) JSVal :=
  recordingHandler (fun _ => Normal VNull).

(** The first [n] sample requests handed to a freshly loaded module, one
    after the other and before any timer expires: what the callers hold,
    and the state reached. *)
Definition sampleWindow (n : nat)
  : list (Completion (Result JSVal)) * World (list Options) :=
  submitAll sampleNext (sampleRequests n) (freshWorld []).

(** ** Further notions for the batching middleware *)

(** The answers of the transport in the examples: one value per request. *)
Definition sampleResponses (n : nat) : list JSVal :=
  map (fun i => VNum (Z.of_nat (100 + i))) (seq 0 n).

(** The names of the properties that a plain object such as
    [awaitingBatches] inherits from [Object.prototype]; under these names
    [awaitingBatches[ name ]] finds a value that is no batch. *)
Definition objectPrototypeNames : list jsstring :=
  [js "constructor"; js "__proto__"; js "hasOwnProperty";
   js "isPrototypeOf"; js "propertyIsEnumerable"; js "toLocaleString";
   js "toString"; js "valueOf"; js "__defineGetter__";
   js "__defineSetter__"; js "__lookupGetter__"; js "__lookupSetter__"].

(** A transport that, before it records the call, hands a further request
    to the middleware. *)
Definition reentrantSend {D R : Type} (next : Handler D R) (later : Options)
  (arg : JSVal) : M D nat :=
  bind (batchRequestMiddleware later next) (fun _ => apiFetch arg).

(** A request with a batch method and a grouping tag but no path. *)
Definition pathlessRequest : Options :=
  mkOptions (Some (js "PUT")) (VStr (js "g1")) None VNull VNull [].

(** A batch as the middleware leaves it in the registry between two events:
    it has requests, fewer than [MAX_BATCH_SIZE], all batched requests of
    this batch id, and the promise of a timer that is waiting for the id. *)
Definition healthyBatch {D : Type} (w : World D) (batchId : jsstring)
  (b : Batch) : Prop :=
  requests b <> []
  /\ (length (requests b) < MAX_BATCH_SIZE)%nat
  /\ allFor batchId (requests b)
  /\ exists t,
      promise b = Some (PTimer t)
      /\ timers w !! t = Some (Scheduled BATCH_TIME_WINDOW batchId).

(** A call of [apiFetch] as [commit] makes it: the combined request of some
    batch, with at least one and at most [MAX_BATCH_SIZE] requests. *)
Definition combinedCall (f : Fetch) : Prop :=
  exists batchId rs,
    request f = batchCall (map projectRequest rs)
    /\ rs <> []
    /\ (length rs <= MAX_BATCH_SIZE)%nat
    /\ allFor batchId rs.

Definition healthy {D : Type} (w : World D) : Prop :=
  (forall batchId b,
      awaitingBatches w !! batchId = Some b -> healthyBatch w batchId b)
  /\ Forall combinedCall (transport w).

(** Events that are all foreign to the window of [batchId], each in the
    state in which it happens. *)
Fixpoint foreignRun {D R : Type} (next : Handler D R) (batchId : jsstring)
  (evs : list Event) (w : World D) : Prop :=
  match evs with
  | [] => True
  | ev :: evs' =>
      foreign batchId w ev /\ foreignRun next batchId evs' (step next ev w)
  end.

(** The requests of a window handed to the middleware in turn, each
    followed by other events: what each call returned, and the state after
    the last of the events. *)
Fixpoint submitWoven {D R : Type} (next : Handler D R)
  (parts : list (Options * list Event)) (w : World D)
  : list (Completion (Result R)) * World D :=
  match parts with
  | [] => ([], w)
  | (options, others) :: parts' =>
      let (c, w1) := batchRequestMiddleware options next w in
      let (cs, w2) := submitWoven next parts' (run next others w1) in
      (c :: cs, w2)
  end.

(** The events woven between the requests are foreign to the window. *)
Fixpoint wovenForeign {D R : Type} (next : Handler D R) (batchId : jsstring)
  (parts : list (Options * list Event)) (w : World D) : Prop :=
  match parts with
  | [] => True
  | (options, others) :: parts' =>
      foreignRun next batchId others
                 (snd (batchRequestMiddleware options next w))
      /\ wovenForeign next batchId parts'
           (run next others (snd (batchRequestMiddleware options next w)))
  end.

(** Two sample requests with traffic in between: a request of another
    group, a request that is passed on, and an answer of the transport to a
    call that was never made. *)
Definition sampleWoven : list (Options * list Event) :=
  [(sampleRequest 0, [Call otherGroupRequest; Call plainRequest]);
   (sampleRequest 1, [Fulfil 5 []; Call otherGroupRequest])].

(** ** The Dashicon component *)

Module Dashicon.

(** [String( v )] of a string or [undefined], as [+] and [join] apply it:
    concatenation spells [undefined] out, [join] leaves it empty. *)
Definition concatString (v : option jsstring) : jsstring :=
  match v with
  | None => js "undefined"
  | Some s => s
  end.

Definition joinString (v : option jsstring) : jsstring :=
  match v with
  | None => []
  | Some s => s
  end.

(** [array.join( separator )]. *)
Fixpoint join (separator : jsstring) (array : list (option jsstring))
  : jsstring :=
  match array with
  | [] => []
  | [v] => joinString v
  | v :: rest => joinString v ++ separator ++ join separator rest
  end.

(** [[ 'dashicon', 'dashicons', 'dashicons-' + icon, className ]
    .filter( Boolean ).join( ' ' )]; [icon] and [className] are strings or
    missing. *)
Definition iconClass (icon className : option jsstring) : jsstring :=
  join (js " ")
       (List.filter truthy
          [Some (js "dashicon");
           Some (js "dashicons");
           Some (js "dashicons-" ++ concatString icon);
           className]).

(** The element [Dashicon] returns: a [span] whose properties are
    [className] and then the properties that were passed besides [icon]
    and [className]. *)
Definition Dashicon (icon className : option jsstring)
  (extraProps : list (string * JSVal)) : JSVal :=
  VObj [("type"%string, VStr (js "span"));
        ("props"%string,
          VObj (("className"%string, VStr (iconClass icon className))
                  :: extraProps))].

End Dashicon.

(** ** The key handler of the URL input *)

Module UrlInput.

(** The key codes [UP], [DOWN], [ENTER] and [TAB] that the file imports
    from the keycodes package; the handler is taken over any four codes. *)
Record KeyCodes := mkKeyCodes {
  UP : Z;
  DOWN : Z;
  ENTER : Z;
  TAB : Z
}.

(** The codes of the arrow keys, Enter and Tab. *)
Definition keyboard : KeyCodes := mkKeyCodes 38 40 13 9.

(** The state of the component that the handler reads: [suggestions],
    [showSuggestions], [selectedSuggestion] ([None] is [null]) and
    [loading]. *)
Record State := mkState {
  suggestions : list JSVal;
  showSuggestions : bool;
  selectedSuggestion : option Z;
  loading : bool
}.

(** What the handler reads of the event: [event.keyCode] and
    [event.target.selectionStart]. *)
Record KeyEvent := mkKeyEvent {
  keyCode : Z;
  selectionStart : Z
}.

(** What the handler does, in the order in which it does it. *)
Inductive Effect :=
| StopPropagation
| PreventDefault
| SetSelectionRange (from to : Z)
| SetSelectedSuggestion (v : option Z)
| SetShowSuggestions (b : bool)
| OnChange (url suggestion : JSVal)
| Speak (message : jsstring).

(** [suggestions[ selectedSuggestion ]]: [undefined] for [null] and for
    an index outside the list. *)
Definition suggestionAt (l : list JSVal) (i : option Z) : JSVal :=
  match i with
  | None => VUndefined
  | Some z => if (z <? 0)%Z then VUndefined else nth (Z.to_nat z) l VUndefined
  end.

(** [selectLink( suggestion )]: reading [suggestion.url] of [undefined] or
    [null] throws before [onChange] is called. *)
Definition selectLink (suggestion : JSVal) : Completion unit * list Effect :=
  match suggestion with
  | VUndefined | VNull => (Throw TypeError, [])
  | _ =>
      (Normal tt,
       [OnChange (getProp suggestion "url") suggestion;
        SetSelectedSuggestion None;
        SetShowSuggestions false])
  end.

(** [! selectedSuggestion]: true for [null] and for 0. *)
Definition noSelection (i : option Z) : bool :=
  match i with
  | None => true
  | Some z => (z =? 0)%Z
  end.

Definition lengthZ {A : Type} (l : list A) : Z := Z.of_nat (length l).

Definition onKeyDownHandler (keys : KeyCodes) (value : jsstring) (st : State)
  (event : KeyEvent) : Completion unit * list Effect :=
  if (negb (showSuggestions st)
      || (lengthZ (suggestions st) =? 0)%Z
      || loading st)
     && truthy (Some value)
  then
    if (keyCode event =? UP keys)%Z then
      if negb (0 =? selectionStart event)%Z
      then (Normal tt, [StopPropagation; PreventDefault; SetSelectionRange 0 0])
      else (Normal tt, [])
    else if (keyCode event =? DOWN keys)%Z then
      if negb (lengthZ value =? selectionStart event)%Z
      then (Normal tt,
            [StopPropagation; PreventDefault;
             SetSelectionRange (lengthZ value) (lengthZ value)])
      else (Normal tt, [])
    else (Normal tt, [])
  else
    let suggestion := suggestionAt (suggestions st) (selectedSuggestion st) in
    if (keyCode event =? UP keys)%Z then
      let previousIndex :=
        if noSelection (selectedSuggestion st)
        then (lengthZ (suggestions st) - 1)%Z
        else match selectedSuggestion st with
             | Some z => (z - 1)%Z
             | None => (-1)%Z
             end in
      (Normal tt,
       [StopPropagation; PreventDefault;
        SetSelectedSuggestion (Some previousIndex)])
    else if (keyCode event =? DOWN keys)%Z then
      let nextIndex :=
        match selectedSuggestion st with
        | None => 0%Z
        | Some z =>
            if (z =? lengthZ (suggestions st) - 1)%Z then 0%Z else (z + 1)%Z
        end in
      (Normal tt,
       [StopPropagation; PreventDefault; SetSelectedSuggestion (Some nextIndex)])
    else if (keyCode event =? TAB keys)%Z then
      match selectedSuggestion st with
      | None => (Normal tt, [])
      | Some _ =>
          match selectLink suggestion with
          | (Normal _, effects) =>
              (Normal tt, effects ++ [Speak (js "Link selected.")])
          | (Throw e, effects) => (Throw e, effects)
          end
      end
    else if (keyCode event =? ENTER keys)%Z then
      match selectedSuggestion st with
      | None => (Normal tt, [])
      | Some _ =>
          let (c, effects) := selectLink suggestion in
          (c, StopPropagation :: effects)
      end
    else (Normal tt, []).

(** The state of the next render: the last value given to each setter. *)
Definition applyEffect (st : State) (e : Effect) : State :=
  match e with
  | SetSelectedSuggestion v =>
      mkState (suggestions st) (showSuggestions st) v (loading st)
  | SetShowSuggestions b =>
      mkState (suggestions st) b (selectedSuggestion st) (loading st)
  | _ => st
  end.

Definition applyEffects (effects : list Effect) (st : State) : State :=
  fold_left applyEffect effects st.

(** The state after a key was pressed with the caret at [caret]. *)
Definition press (keys : KeyCodes) (value : jsstring) (code caret : Z)
  (st : State) : State :=
  applyEffects (snd (onKeyDownHandler keys value st (mkKeyEvent code caret)))
               st.

(** The list of suggestions is on screen and ready. *)
Definition listActive (st : State) : Prop :=
  showSuggestions st = true /\ suggestions st <> [] /\ loading st = false.

(** Nothing is selected, or a suggestion of the list is. *)
Definition selectionInRange (st : State) : Prop :=
  match selectedSuggestion st with
  | None => True
  | Some z => (0 <= z < lengthZ (suggestions st))%Z
  end.

(** A list of three suggestions with the second one selected. *)
Definition sampleState : State :=
  mkState [VObj [("url"%string, VStr (js "/a"))];
           VObj [("url"%string, VStr (js "/b"))];
           VObj [("url"%string, VStr (js "/c"))]]
          true (Some 1%Z) false.

End UrlInput.

(** * Properties *)

(** ** The model on concrete inputs *)

Example batchId_of_g1_POST :
  JSON_stringify (Some (js "g1")) (Some (js "POST")) =
  [91; 34; 103; 49; 34; 44; 34; 80; 79; 83; 84; 34; 93].
Proof. reflexivity. Qed.

Example quote_escapes_controls_and_lone_surrogates :
  QuoteJSONString [34; 10; 1; 55357; 56832; 56832] =
  [34] ++ [92; 34] ++ [92; 110] ++ js "\u0001" ++ [55357; 56832]
       ++ js "\ude00" ++ [34].
Proof. reflexivity. Qed.

Example template_parts_path_is_supported :
  endpointSupportsBatch (js "/wp/v2/template-parts/7") = true
  /\ endpointSupportsBatch (js "/wp/v2/posts") = false.
Proof. split; reflexivity. Qed.

Example bypasses_examples :
  bypasses plainRequest = Normal true
  /\ bypasses untaggedRequest = Normal true
  /\ bypasses (sampleRequest 0) = Normal false
  /\ bypasses (mkOptions (Some (js "PUT")) (VStr (js "g1")) None
                         VNull VNull []) = Throw TypeError.
Proof. repeat split; reflexivity. Qed.

(** Requests A and B of group [g1]: the timer expires, the transport
    answers with two responses, A receives the first and B the second. *)
Example two_requests_demultiplexed :
  let answered :=
    run sampleNext [Expire 0; Fulfil 0 [VStr (js "respA"); VStr (js "respB")]]
        (snd (sampleWindow 2)) in
  map (callerState answered) (fst (sampleWindow 2)) =
  [Some (Fulfilled (VStr (js "respA"))); Some (Fulfilled (VStr (js "respB")))].
Proof. vm_compute. reflexivity. Qed.

(** The transport rejects the combined call of A and B with [E]: both
    promises are rejected with [E]. *)
Example two_requests_rejected :
  let failed :=
    run sampleNext [Expire 0; Reject 0 (VStr (js "E"))]
        (snd (sampleWindow 2)) in
  map (callerState failed) (fst (sampleWindow 2)) =
  [Some (Rejected (VStr (js "E"))); Some (Rejected (VStr (js "E")))].
Proof. vm_compute. reflexivity. Qed.

(** ** Batch ids *)

Lemma unhexDigit_hexDigit (d : N) :
  d < 16 -> unhexDigit (hexDigit d) = Some d.
Proof.
  intros Hd. unfold hexDigit, unhexDigit.
  destruct (N.ltb_spec d 10).
  - replace ((48 <=? 48 + d) && (48 + d <=? 57)) with true.
    + f_equal. lia.
    + symmetry. apply andb_true_iff. split; apply N.leb_le; lia.
  - replace ((48 <=? 87 + d) && (87 + d <=? 57)) with false.
    + replace ((97 <=? 87 + d) && (87 + d <=? 102)) with true.
      * f_equal. lia.
      * symmetry. apply andb_true_iff. split; apply N.leb_le; lia.
    + symmetry. apply andb_false_iff. right. apply N.leb_gt. lia.
Qed.

Lemma unhex4_unicodeEscape (c : N) :
  c < 65536 ->
  unhex4 (hexDigit (c / 4096 mod 16)) (hexDigit (c / 256 mod 16))
         (hexDigit (c / 16 mod 16)) (hexDigit (c mod 16)) = Some c.
Proof.
  intros Hc. unfold unhex4.
  rewrite !unhexDigit_hexDigit by (apply N.mod_lt; lia).
  f_equal.
  pose proof (N.div_mod c 16 ltac:(lia)) as H0.
  pose proof (N.div_mod (c / 16) 16 ltac:(lia)) as H1.
  pose proof (N.div_mod (c / 256) 16 ltac:(lia)) as H2.
  rewrite N.Div0.div_div in H1, H2.
  change (16 * 16) with 256 in H1. change (256 * 16) with 4096 in H2.
  assert (c / 4096 < 16) as Hs by (apply N.Div0.div_lt_upper_bound; lia).
  rewrite (N.mod_small (c / 4096) 16) by assumption.
  lia.
Qed.

Lemma readQuoted_plain (c : N) (l : jsstring) :
  c <> 34 -> c <> 92 ->
  readQuoted (c :: l) = consUnit (Some c) (readQuoted l).
Proof.
  intros H1 H2. simpl.
  destruct (N.eqb_spec c 34); [contradiction |].
  destruct (N.eqb_spec c 92); [contradiction | reflexivity].
Qed.

Lemma readQuoted_unicodeEscape (c : N) (l : jsstring) :
  c < 65536 ->
  readQuoted (unicodeEscape c ++ l) = consUnit (Some c) (readQuoted l).
Proof.
  intros Hc. unfold unicodeEscape.
  change (readQuoted (_ ++ l))
    with (consUnit (unhex4 (hexDigit (c / 4096 mod 16))
                           (hexDigit (c / 256 mod 16))
                           (hexDigit (c / 16 mod 16))
                           (hexDigit (c mod 16))) (readQuoted l)).
  now rewrite unhex4_unicodeEscape.
Qed.

Lemma surrogate_bounds (c : N) :
  isLeadingSurrogate c || isTrailingSurrogate c = true ->
  55296 <= c /\ c <= 57343.
Proof.
  unfold isLeadingSurrogate, isTrailingSurrogate.
  rewrite orb_true_iff, !andb_true_iff, !N.leb_le. lia.
Qed.

Lemma readQuoted_quoteUnit (c : N) (l : jsstring) :
  readQuoted (quoteUnit c ++ l) = consUnit (Some c) (readQuoted l).
Proof.
  unfold quoteUnit.
  repeat match goal with
         | |- context [if ?x =? ?y then _ else _] =>
             destruct (N.eqb_spec x y); [subst; reflexivity |]
         end.
  destruct (N.ltb_spec c 32) as [Hlt | Hge]; simpl orb.
  - apply readQuoted_unicodeEscape. lia.
  - destruct (isLeadingSurrogate c || isTrailingSurrogate c) eqn:Hs.
    + apply readQuoted_unicodeEscape.
      apply surrogate_bounds in Hs. lia.
    + now apply readQuoted_plain.
Qed.

Lemma quoteUnits_cons (c : N) (rest : jsstring) :
  quoteUnits (c :: rest) =
  if isLeadingSurrogate c then
    match rest with
    | d :: rest' =>
        if isTrailingSurrogate d then c :: d :: quoteUnits rest'
        else unicodeEscape c ++ quoteUnits rest
    | [] => unicodeEscape c
    end
  else quoteUnit c ++ quoteUnits rest.
Proof. reflexivity. Qed.

Lemma readQuoted_quoteUnits_bounded (n : nat) :
  forall s r : jsstring,
    (length s <= n)%nat ->
    readQuoted (quoteUnits s ++ 34 :: r) = Some (s, r).
Proof.
  induction n as [| n IH]; intros s r Hlen.
  - destruct s; [reflexivity | simpl in Hlen; lia].
  - destruct s as [| c rest]; [reflexivity |].
    simpl in Hlen. rewrite quoteUnits_cons.
    destruct (isLeadingSurrogate c) eqn:Hlead.
    + assert (55296 <= c /\ c <= 57343) as Hc
        by (apply surrogate_bounds; rewrite Hlead; reflexivity).
      destruct rest as [| d rest'].
      * rewrite readQuoted_unicodeEscape by lia. reflexivity.
      * destruct (isTrailingSurrogate d) eqn:Htrail.
        -- assert (55296 <= d /\ d <= 57343) as Hd
             by (apply surrogate_bounds; rewrite Htrail; apply orb_true_r).
           simpl app.
           rewrite readQuoted_plain by lia.
           rewrite readQuoted_plain by lia.
           rewrite IH by (simpl in Hlen; lia). reflexivity.
        -- rewrite <- app_assoc, readQuoted_unicodeEscape by lia.
           rewrite IH by lia. reflexivity.
    + rewrite <- app_assoc, readQuoted_quoteUnit.
      rewrite IH by lia. reflexivity.
Qed.

Lemma readQuoted_quoteUnits (s r : jsstring) :
  readQuoted (quoteUnits s ++ 34 :: r) = Some (s, r).
Proof. now apply (readQuoted_quoteUnits_bounded (length s)). Qed.

Lemma stringifyElement_inj (a b : option jsstring) (r1 r2 : jsstring) :
  stringifyElement a ++ r1 = stringifyElement b ++ r2 ->
  a = b /\ r1 = r2.
Proof.
  intros Heq.
  destruct a as [s1 |], b as [s2 |]; simpl in Heq.
  - unfold QuoteJSONString in Heq. simpl in Heq.
    injection Heq as Heq.
    rewrite <- !app_assoc in Heq. simpl in Heq.
    pose proof (readQuoted_quoteUnits s1 r1) as H1.
    rewrite Heq, readQuoted_quoteUnits in H1.
    injection H1 as -> ->. now split.
  - unfold QuoteJSONString in Heq. discriminate Heq.
  - unfold QuoteJSONString in Heq. discriminate Heq.
  - change (js "null" ++ r1) with (110 :: 117 :: 108 :: 108 :: r1) in Heq.
    change (js "null" ++ r2) with (110 :: 117 :: 108 :: 108 :: r2) in Heq.
    injection Heq as ->. now split.
Qed.

Lemma JSON_stringify_inj (a1 m1 a2 m2 : option jsstring) :
  JSON_stringify a1 m1 = JSON_stringify a2 m2 -> a1 = a2 /\ m1 = m2.
Proof.
  unfold JSON_stringify. intros Heq. injection Heq as Heq.
  apply stringifyElement_inj in Heq as [-> Heq].
  injection Heq as Heq.
  apply stringifyElement_inj in Heq as [-> _].
  now split.
Qed.

(** ** The functions of the module, as equations on the state *)

Section Equations.

Context {D R : Type}.
Implicit Types (w : World D) (next : Handler D R) (options : Options).
Implicit Types (batchId : jsstring).

Lemma addRequestToBatch_eq batchId options w :
  addRequestToBatch batchId options w =
  (Normal (length (pendingRequests w batchId)),
   mkWorld (<[batchId := mkBatch (pendingPromise w batchId)
                                 (pendingRequests w batchId ++ [options])]>
              (awaitingBatches w))
           (timers w) (transport w) (downstream w)).
Proof.
  unfold addRequestToBatch, pendingRequests, pendingPromise, bind,
    readBatch, writeBatch, ret.
  destruct (awaitingBatches w !! batchId) as [b |] eqn:Hb; simpl.
  - rewrite Hb. simpl. rewrite lookup_insert_eq. simpl.
    rewrite length_app. simpl. do 2 f_equal. lia.
  - rewrite lookup_insert_eq. simpl. rewrite lookup_insert_eq. simpl.
    now rewrite insert_insert_eq.
Qed.

Lemma commit_present batchId w u :
  awaitingBatches w !! batchId = Some u ->
  commit batchId w =
  (Normal (length (transport w)),
   mkWorld (delete batchId (awaitingBatches w)) (timers w)
           (transport w
              ++ [mkFetch (batchCall (map projectRequest (requests u)))
                          Pending])
           (downstream w)).
Proof.
  intros Hu. unfold commit, commitVia, bind, readBatch, deleteBatch.
  rewrite Hu.
  reflexivity.
Qed.

Lemma commit_absent batchId w :
  awaitingBatches w !! batchId = None ->
  commit batchId w = (Throw TypeError, w).
Proof.
  intros Hu. unfold commit, commitVia, bind, readBatch, deleteBatch, throw.
  rewrite Hu.
  simpl. rewrite delete_id by assumption. now destruct w.
Qed.

Lemma middleware_bypass options next w :
  bypasses options = Normal true ->
  batchRequestMiddleware options next w = forwarded next options w.
Proof.
  intros Hb. unfold batchRequestMiddleware, forwarded, bind, callNext, ret.
  rewrite Hb. now destruct (next options (downstream w)) as [[r | e] d].
Qed.

Lemma middleware_flush options next w :
  batchable options ->
  (MAX_BATCH_SIZE <= length (pendingRequests w (batchIdOf options)) + 1)%nat ->
  batchRequestMiddleware options next w =
  (Normal (Demux (PFetch (length (transport w)))
                 (length (pendingRequests w (batchIdOf options)))),
   mkWorld (delete (batchIdOf options) (awaitingBatches w)) (timers w)
           (transport w
              ++ [mkFetch
                    (batchCall
                       (map projectRequest
                            (pendingRequests w (batchIdOf options)
                               ++ [options])))
                    Pending])
           (downstream w)).
Proof.
  intros Hb Hfull. unfold batchRequestMiddleware, bind at 1. rewrite Hb.
  unfold bind at 1. rewrite addRequestToBatch_eq.
  destruct (Nat.leb_spec MAX_BATCH_SIZE
              (length (pendingRequests w (batchIdOf options)) + 1));
    [| lia].
  unfold bind at 1. unfold bind at 1.
  erewrite commit_present by (simpl; apply lookup_insert_eq).
  unfold ret. simpl. now rewrite delete_insert_eq.
Qed.

Lemma middleware_first options next w :
  batchable options ->
  (length (pendingRequests w (batchIdOf options)) + 1 < MAX_BATCH_SIZE)%nat ->
  pendingPromise w (batchIdOf options) = None ->
  batchRequestMiddleware options next w =
  (Normal (Demux (PTimer (length (timers w)))
                 (length (pendingRequests w (batchIdOf options)))),
   mkWorld (<[batchIdOf options :=
                mkBatch (Some (PTimer (length (timers w))))
                        (pendingRequests w (batchIdOf options) ++ [options])]>
              (awaitingBatches w))
           (timers w ++ [Scheduled BATCH_TIME_WINDOW (batchIdOf options)])
           (transport w) (downstream w)).
Proof.
  intros Hb Hroom Hp. unfold batchRequestMiddleware, bind at 1. rewrite Hb.
  unfold bind at 1. rewrite addRequestToBatch_eq, Hp.
  destruct (Nat.leb_spec MAX_BATCH_SIZE
              (length (pendingRequests w (batchIdOf options)) + 1));
    [lia |].
  unfold bind at 1, commitEventually, bind, readBatch, setTimeout, writeBatch,
    ret.
  simpl. rewrite lookup_insert_eq. simpl. now rewrite insert_insert_eq.
Qed.

Lemma middleware_join options next w p :
  batchable options ->
  (length (pendingRequests w (batchIdOf options)) + 1 < MAX_BATCH_SIZE)%nat ->
  pendingPromise w (batchIdOf options) = Some p ->
  batchRequestMiddleware options next w =
  (Normal (Demux p (length (pendingRequests w (batchIdOf options)))),
   mkWorld (<[batchIdOf options :=
                mkBatch (Some p)
                        (pendingRequests w (batchIdOf options) ++ [options])]>
              (awaitingBatches w))
           (timers w) (transport w) (downstream w)).
Proof.
  intros Hb Hroom Hp. unfold batchRequestMiddleware, bind at 1. rewrite Hb.
  unfold bind at 1. rewrite addRequestToBatch_eq, Hp.
  destruct (Nat.leb_spec MAX_BATCH_SIZE
              (length (pendingRequests w (batchIdOf options)) + 1));
    [lia |].
  unfold bind at 1, commitEventually, bind, readBatch, ret.
  simpl. rewrite lookup_insert_eq. reflexivity.
Qed.

End Equations.

(** ** Requests that are passed on, requests that are batched *)

Section Forwarding.

Context {D R : Type}.
Implicit Types (w : World D) (next : Handler D R) (options : Options).

Lemma middleware_throw options next w e :
  bypasses options = Throw e ->
  batchRequestMiddleware options next w = (Throw e, w).
Proof.
  intros Hb. unfold batchRequestMiddleware, bind. now rewrite Hb.
Qed.

Lemma ineligible_bypasses options :
  includes batchMethods (method options) = false
  \/ truthyValue (batchAs options) = false
  \/ (exists p, path options = Some p /\ endpointSupportsBatch p = false) ->
  bypasses options = Normal true.
Proof.
  unfold bypasses. intros [Hm | [Ht | (p & Hp & He)]].
  - now rewrite Hm.
  - rewrite Ht. now destruct (includes _ _).
  - rewrite Hp, He.
    now destruct (includes _ _), (truthyValue _).
Qed.

(** A batched request ends in one of three ways: it fills the batch and
    commits it, it opens the time window, or it joins the window that is
    open. *)
Lemma middleware_batchable options next w :
  batchable options ->
  exists p tms sent regs,
    batchRequestMiddleware options next w =
    (Normal (Demux p (length (pendingRequests w (batchIdOf options)))),
     mkWorld regs (timers w ++ tms) (transport w ++ sent) (downstream w))
    /\ (forall b, b <> batchIdOf options ->
                  regs !! b = awaitingBatches w !! b)
    /\ (regs !! batchIdOf options = None
        \/ exists q, regs !! batchIdOf options =
                     Some (mkBatch q (pendingRequests w (batchIdOf options)
                                        ++ [options])))
    /\ (sent = [] \/ exists reqs, sent = [mkFetch (batchCall reqs) Pending])
    /\ (tms = [] \/ tms = [Scheduled BATCH_TIME_WINDOW (batchIdOf options)]).
Proof.
  intros Hb.
  destruct (Nat.leb_spec MAX_BATCH_SIZE
              (length (pendingRequests w (batchIdOf options)) + 1))
    as [Hfull | Hroom].
  - rewrite middleware_flush by assumption.
    eexists _, [], [_], _. rewrite app_nil_r.
    split; [reflexivity |]. split; [| split; [| split]].
    + intros b Hne. now rewrite lookup_delete_ne.
    + left. apply lookup_delete_eq.
    + right. eauto.
    + now left.
  - destruct (pendingPromise w (batchIdOf options)) as [p |] eqn:Hp.
    + rewrite (middleware_join _ _ _ p) by assumption.
      eexists _, [], [], _. rewrite !app_nil_r.
      split; [reflexivity |]. split; [| split; [| split]].
      * intros b Hne. now rewrite lookup_insert_ne.
      * right. eexists. apply lookup_insert_eq.
      * now left.
      * now left.
    + rewrite middleware_first by assumption.
      eexists _, [_], [], _. rewrite !app_nil_r.
      split; [reflexivity |]. split; [| split; [| split]].
      * intros b Hne. now rewrite lookup_insert_ne.
      * right. eexists. apply lookup_insert_eq.
      * now left.
      * now right.
Qed.

End Forwarding.

(** X17.  A request whose method is none of POST,
    PUT, PATCH and DELETE, or that has no grouping tag or a falsy one, or
    for whose path [endpointSupportsBatch] answers no, is handed to the next
    handler, whose completion is returned as it is while the registry, the
    timers and the transport stay as they were; a next handler that records
    its calls has recorded exactly this one call, with the options as they
    came. *)
Theorem ineligible_request_is_forwarded :
  forall (D R : Type) (options : Options),
    includes batchMethods (method options) = false
    \/ truthyValue (batchAs options) = false
    \/ (exists p, path options = Some p /\ endpointSupportsBatch p = false) ->
    (forall (next : Handler D R) (w : World D),
        batchRequestMiddleware options next w =
        (match fst (next options (downstream w)) with
         | Normal r => Normal (FromNext r)
         | Throw e => Throw e
         end,
         mkWorld (awaitingBatches w) (timers w) (transport w)
                 (snd (next options (downstream w)))))
    /\ (forall (respond : Options -> Completion R) (w : World (list Options)),
           batchRequestMiddleware options (recordingHandler respond) w =
           (match respond options with
            | Normal r => Normal (FromNext r)
            | Throw e => Throw e
            end,
            mkWorld (awaitingBatches w) (timers w) (transport w)
                    (downstream w ++ [options]))).
Proof.
  intros D R options Hin. apply ineligible_bypasses in Hin. split.
  - intros next w. now rewrite middleware_bypass.
  - intros respond w. now rewrite middleware_bypass.
Qed.

Lemma ineligible_request_is_forwarded_witness :
  (includes batchMethods (method plainRequest) = false
   \/ truthyValue (batchAs plainRequest) = false
   \/ (exists p, path plainRequest = Some p /\ endpointSupportsBatch p = false))
  /\ batchRequestMiddleware plainRequest sampleNext (freshWorld []) =
     (Normal (FromNext VNull), mkWorld ∅ [] [] [plainRequest]).
Proof.
  assert (includes batchMethods (method plainRequest) = false
          \/ truthyValue (batchAs plainRequest) = false
          \/ (exists p, path plainRequest = Some p
                        /\ endpointSupportsBatch p = false)) as Hin
    by (left; reflexivity).
  split; [exact Hin |].
  exact (proj2 (ineligible_request_is_forwarded (list Options) JSVal
                  plainRequest Hin)
               (fun _ => Normal VNull) (freshWorld [])).
Defined.

(** C4 (the code at the failing input).  A PUT request with the grouping
    tag [g1] and no path is not one the middleware can batch, since no
    path is recognised for it; yet it is not handed to the next handler.
    Its method and its tag pass the first two tests, [options.path.indexOf]
    is then evaluated on [undefined] and throws a TypeError: whatever the
    next handler is, it is not called (a handler that records its calls has
    recorded none), and the middleware returns nothing. *)
Theorem pathless_tagged_request_is_not_forwarded :
  includes batchMethods (method pathlessRequest) = true
  /\ truthyValue (batchAs pathlessRequest) = true
  /\ path pathlessRequest = None
  /\ (forall (R : Type) (respond : Options -> Completion R)
             (w : World (list Options)),
         batchRequestMiddleware pathlessRequest (recordingHandler respond) w
         = (Throw TypeError, w))
  /\ forall (D R : Type) (next : Handler D R) (w : World D),
      batchRequestMiddleware pathlessRequest next w = (Throw TypeError, w).
Proof.
  split; [reflexivity |]. split; [reflexivity |]. split; [reflexivity |].
  split.
  - intros R respond w. now apply middleware_throw.
  - intros D R next w. now apply middleware_throw.
Qed.

(** C9.  A request that is batched never reaches the next handler: what the
    middleware returns and the state it leaves are the same whatever the
    next handler is, the state of the handlers after it is untouched, the
    caller receives a promise of the module, and [apiFetch] is called
    either not at all or once, with a combined request.  The same holds
    when a timer expires: the handlers after the middleware are not
    touched, and at most one call is made, a combined request. *)
Theorem batched_request_never_forwarded :
  forall (D R : Type) (options : Options) (w : World D),
    batchable options ->
    (forall next1 next2 : Handler D R,
        batchRequestMiddleware options next1 w =
        batchRequestMiddleware options next2 w)
    /\ (forall next : Handler D R,
           downstream (snd (batchRequestMiddleware options next w)) =
           downstream w
           /\ (exists p requestIdx,
                  fst (batchRequestMiddleware options next w) =
                  Normal (Demux p requestIdx))
           /\ (transport (snd (batchRequestMiddleware options next w)) =
               transport w
               \/ exists reqs,
                  transport (snd (batchRequestMiddleware options next w)) =
                  transport w ++ [mkFetch (batchCall reqs) Pending]))
    /\ (forall t,
           downstream (expire t w) = downstream w
           /\ (transport (expire t w) = transport w
               \/ exists reqs,
                  transport (expire t w) =
                  transport w ++ [mkFetch (batchCall reqs) Pending])).
Proof.
  intros D R options w Hb. split; [| split].
  - intros next1 next2.
    unfold batchRequestMiddleware, bind at 1 3. now rewrite Hb.
  - intros next.
    destruct (middleware_batchable options next w Hb)
      as (p & tms & sent & regs & -> & _ & _ & Hsent & _).
    simpl. split; [reflexivity |]. split; [eauto |].
    destruct Hsent as [-> | [reqs ->]].
    + left. apply app_nil_r.
    + right. eauto.
  - intros t. unfold expire.
    destruct (timers w !! t) as [[delay b | | r] |]; auto.
    destruct (awaitingBatches w !! b) as [u |] eqn:Hu.
    + rewrite (commit_present _ _ u Hu). simpl. eauto.
    + rewrite (commit_absent _ _ Hu). simpl. auto.
Qed.

Lemma batched_request_never_forwarded_witness :
  batchable (sampleRequest 0)
  /\ downstream (snd (batchRequestMiddleware (sampleRequest 0) sampleNext
                        (freshWorld [plainRequest]))) = [plainRequest].
Proof.
  assert (batchable (sampleRequest 0)) as Hb by reflexivity.
  split; [exact Hb |].
  exact (proj1 (proj1 (proj2 (batched_request_never_forwarded
                                (list Options) JSVal (sampleRequest 0)
                                (freshWorld [plainRequest]) Hb))
                      sampleNext)).
Defined.

(** ** Timers, the transport and what later events leave alone *)

Section Stability.

Context {D R : Type}.
Implicit Types (w : World D) (next : Handler D R) (options : Options).
Implicit Types (ev : Event) (evs : list Event) (batchId : jsstring).

Lemma expire_present t w delay batchId u :
  timers w !! t = Some (Scheduled delay batchId) ->
  awaitingBatches w !! batchId = Some u ->
  expire t w =
  mkWorld (delete batchId (awaitingBatches w))
          (<[t := Ran (Some (length (transport w)))]> (timers w))
          (transport w
             ++ [mkFetch (batchCall (map projectRequest (requests u)))
                         Pending])
          (downstream w).
Proof.
  intros Ht Hu. unfold expire. rewrite Ht.
  now rewrite (commit_present _ _ u Hu).
Qed.

Lemma expire_absent t w delay batchId :
  timers w !! t = Some (Scheduled delay batchId) ->
  awaitingBatches w !! batchId = None ->
  expire t w =
  mkWorld (awaitingBatches w) (<[t := Ran None]> (timers w))
          (transport w) (downstream w).
Proof.
  intros Ht Hu. unfold expire. rewrite Ht.
  now rewrite (commit_absent _ _ Hu).
Qed.

Lemma expire_idle t w :
  (forall delay batchId, timers w !! t <> Some (Scheduled delay batchId)) ->
  expire t w = w.
Proof.
  intros Ht. unfold expire.
  destruct (timers w !! t) as [[delay b | | r] |]; try reflexivity.
  now destruct (Ht delay b).
Qed.

(** A step changes the registry only by committing batches or by adding the
    request of the call at the end of one. *)
Lemma step_registry next ev w batchId u' :
  awaitingBatches (step next ev w) !! batchId = Some u' ->
  match awaitingBatches w !! batchId with
  | Some u =>
      requests u' = requests u
      \/ exists options, ev = Call options
                         /\ requests u' = requests u ++ [options]
  | None => exists options, ev = Call options /\ requests u' = [options]
  end.
Proof.
  destruct ev as [options | t | k resps | k reason]; simpl.
  - destruct (bypasses options) as [[|] | e] eqn:Hb.
    + rewrite middleware_bypass by assumption. simpl. intros ->. now left.
    + destruct (middleware_batchable options next w Hb)
        as (p & tms & sent & regs & -> & Hframe & Hkey & _ & _).
      simpl. destruct (decide (batchId = batchIdOf options)) as [-> | Hne].
      * destruct Hkey as [-> | [q ->]]; [discriminate |].
        intros [= <-]. simpl. unfold pendingRequests.
        destruct (awaitingBatches w !! batchIdOf options); eauto.
      * rewrite Hframe by assumption. intros ->. now left.
    + rewrite (middleware_throw _ _ _ e) by assumption. simpl.
      intros ->. now left.
  - unfold expire.
    destruct (timers w !! t) as [[delay b | | r] |];
      try (intros ->; now left).
    destruct (awaitingBatches w !! b) as [u |] eqn:Hu.
    + rewrite (commit_present _ _ u Hu). simpl.
      destruct (decide (b = batchId)) as [-> | Hne].
      * now rewrite lookup_delete_eq.
      * rewrite lookup_delete_ne by assumption. intros ->. now left.
    + rewrite (commit_absent _ _ Hu). simpl. intros ->. now left.
  - unfold settle.
    destruct (transport w !! k) as [[arg [| |]] |]; simpl;
      intros ->; now left.
  - unfold settle.
    destruct (transport w !! k) as [[arg [| |]] |]; simpl;
      intros ->; now left.
Qed.

(** The requests of a batch that is awaiting after some events were
    awaiting before or came with a call among these events. *)
Lemma run_registry next evs (P : Options -> Prop) batchId :
  (forall options, In (Call options) evs -> P options) ->
  forall w,
    (forall u, awaitingBatches w !! batchId = Some u -> Forall P (requests u)) ->
    forall u',
      awaitingBatches (run next evs w) !! batchId = Some u' ->
      Forall P (requests u').
Proof.
  induction evs as [| ev evs IH]; intros Hcalls w Hw u' Hu'.
  - now apply Hw.
  - change (run next (ev :: evs) w) with (run next evs (step next ev w)) in Hu'.
    apply (IH (fun o Hin => Hcalls o (or_intror Hin)) (step next ev w));
      [| assumption].
    intros u1 Hu1. apply step_registry in Hu1.
    destruct (awaitingBatches w !! batchId) as [u |] eqn:Hu.
    + destruct Hu1 as [-> | (o & -> & ->)]; [now apply Hw |].
      apply Forall_app. split; [now apply Hw |].
      apply Forall_cons. split; [| constructor].
      apply Hcalls. now left.
    + destruct Hu1 as (o & -> & ->).
      apply Forall_cons. split; [| constructor].
      apply Hcalls. now left.
Qed.

(** A call that was made stays in the transport with its argument, and its
    promise keeps its state once it is settled. *)
Lemma settle_transport k o w i f :
  transport w !! i = Some f ->
  exists f',
    transport (settle k o w) !! i = Some f'
    /\ request f' = request f
    /\ (outcome f <> Pending -> outcome f' = outcome f).
Proof.
  intros Hf. unfold settle.
  destruct (transport w !! k) as [[arg [| |]] |] eqn:Hk; simpl; eauto.
  destruct (decide (i = k)) as [-> | Hne].
  - rewrite Hk in Hf. injection Hf as <-.
    rewrite list_lookup_insert_eq by (eapply lookup_lt_Some; eauto).
    eexists. split; [reflexivity |]. split; [reflexivity |].
    intros Hp. now destruct Hp.
  - rewrite list_lookup_insert_ne by congruence. eauto.
Qed.

Lemma step_transport next ev w i f :
  transport w !! i = Some f ->
  exists f',
    transport (step next ev w) !! i = Some f'
    /\ request f' = request f
    /\ (outcome f <> Pending -> outcome f' = outcome f).
Proof.
  intros Hf.
  destruct ev as [options | t | k resps | k reason]; simpl.
  - destruct (bypasses options) as [[|] | e] eqn:Hb.
    + rewrite middleware_bypass by assumption. simpl. eauto.
    + destruct (middleware_batchable options next w Hb)
        as (p & tms & sent & regs & -> & _).
      simpl. rewrite lookup_app_l_Some with (x := f) by assumption. eauto.
    + rewrite (middleware_throw _ _ _ e) by assumption. simpl. eauto.
  - unfold expire.
    destruct (timers w !! t) as [[delay b | | r] |]; eauto.
    destruct (awaitingBatches w !! b) as [u |] eqn:Hu.
    + rewrite (commit_present _ _ u Hu). simpl.
      rewrite lookup_app_l_Some with (x := f) by assumption. eauto.
    + rewrite (commit_absent _ _ Hu). simpl. eauto.
  - now apply settle_transport.
  - now apply settle_transport.
Qed.

(** A timer whose callback has run stays as it is. *)
Lemma step_timer_ran next ev w t r :
  timers w !! t = Some (Ran r) ->
  timers (step next ev w) !! t = Some (Ran r).
Proof.
  intros Ht.
  destruct ev as [options | t' | k resps | k reason]; simpl.
  - destruct (bypasses options) as [[|] | e] eqn:Hb.
    + now rewrite middleware_bypass by assumption.
    + destruct (middleware_batchable options next w Hb)
        as (p & tms & sent & regs & -> & _).
      simpl. now apply lookup_app_l_Some.
    + now rewrite (middleware_throw _ _ _ e) by assumption.
  - unfold expire.
    destruct (timers w !! t') as [[delay b | | r'] |] eqn:Ht'; try assumption.
    assert (t' <> t) as Hne by congruence.
    destruct (commit b w) as [c w'] eqn:Hc.
    assert (timers w' = timers w) as Htm.
    { destruct (awaitingBatches w !! b) as [u |] eqn:Hu.
      - rewrite (commit_present _ _ u Hu) in Hc. now injection Hc as _ <-.
      - rewrite (commit_absent _ _ Hu) in Hc. now injection Hc as _ <-. }
    simpl. rewrite Htm, list_lookup_insert_ne by assumption. assumption.
  - unfold settle.
    destruct (transport w !! k) as [[arg [| |]] |]; assumption.
  - unfold settle.
    destruct (transport w !! k) as [[arg [| |]] |]; assumption.
Qed.

Lemma run_cons next ev evs w :
  run next (ev :: evs) w = run next evs (step next ev w).
Proof. reflexivity. Qed.

Lemma run_transport next evs :
  forall w i f,
    transport w !! i = Some f ->
    exists f',
      transport (run next evs w) !! i = Some f'
      /\ request f' = request f
      /\ (outcome f <> Pending -> outcome f' = outcome f).
Proof.
  induction evs as [| ev evs IH]; intros w i f Hf.
  - simpl. eauto.
  - rewrite run_cons.
    destruct (step_transport next ev w i f Hf) as (f1 & H1 & Hr1 & Ho1).
    destruct (IH _ _ _ H1) as (f2 & H2 & Hr2 & Ho2).
    exists f2. split; [assumption |]. split; [congruence |].
    intros Hp. rewrite <- (Ho1 Hp). apply Ho2. now rewrite (Ho1 Hp).
Qed.

Lemma run_timer_ran next evs :
  forall w t r,
    timers w !! t = Some (Ran r) ->
    timers (run next evs w) !! t = Some (Ran r).
Proof.
  induction evs as [| ev evs IH]; intros w t r Ht; [assumption |].
  rewrite run_cons. apply IH. now apply step_timer_ran.
Qed.

End Stability.

(** ** Batch ids keep groups and methods apart *)

Lemma batchIdOf_string_tag (options : Options) (tag : jsstring) :
  batchAs options = VStr tag ->
  batchIdOf options = JSON_stringify (Some tag) (method options).
Proof.
  intros Htag. unfold batchIdOf, JSON_stringify. rewrite Htag.
  destruct (method options) as [m |]; simpl; now rewrite <- app_assoc.
Qed.

(** C7 (amended).  Two batched requests whose grouping tags are strings
    and whose tags differ or whose methods differ have different batch
    ids, and the call for one of them leaves the batch awaiting under the
    id of the other as it was: they are never put into the same batch. *)
Theorem different_tag_or_method_different_batch :
  forall (D R : Type) (o1 o2 : Options) (tag1 tag2 : jsstring),
    batchable o1 -> batchable o2 ->
    batchAs o1 = VStr tag1 -> batchAs o2 = VStr tag2 ->
    tag1 <> tag2 \/ method o1 <> method o2 ->
    batchIdOf o1 <> batchIdOf o2
    /\ forall (next : Handler D R) (w : World D),
        awaitingBatches (snd (batchRequestMiddleware o2 next w))
          !! batchIdOf o1 = awaitingBatches w !! batchIdOf o1
        /\ awaitingBatches (snd (batchRequestMiddleware o1 next w))
             !! batchIdOf o2 = awaitingBatches w !! batchIdOf o2.
Proof.
  intros D R o1 o2 tag1 tag2 Hb1 Hb2 Ht1 Ht2 Hdiff.
  assert (batchIdOf o1 <> batchIdOf o2) as Hne.
  { rewrite (batchIdOf_string_tag o1 tag1 Ht1).
    rewrite (batchIdOf_string_tag o2 tag2 Ht2). intros Heq.
    apply JSON_stringify_inj in Heq as [Ha Hm].
    destruct Hdiff as [Hd | Hd]; [| contradiction].
    apply Hd. congruence. }
  split; [assumption |]. intros next w. split.
  - destruct (middleware_batchable o2 next w Hb2)
      as (p & tms & sent & regs & -> & Hframe & _).
    simpl. now apply Hframe.
  - destruct (middleware_batchable o1 next w Hb1)
      as (p & tms & sent & regs & -> & Hframe & _).
    simpl. apply Hframe. congruence.
Qed.

Lemma different_tag_or_method_different_batch_witness :
  (batchable (sampleRequest 0) /\ batchable otherGroupRequest
   /\ batchAs (sampleRequest 0) = VStr (js "g1")
   /\ batchAs otherGroupRequest = VStr (js "g2")
   /\ (js "g1" <> js "g2"
       \/ method (sampleRequest 0) <> method otherGroupRequest))
  /\ batchIdOf (sampleRequest 0) <> batchIdOf otherGroupRequest.
Proof.
  assert (batchable (sampleRequest 0)) as H1 by reflexivity.
  assert (batchable otherGroupRequest) as H2 by reflexivity.
  assert (batchAs (sampleRequest 0) = VStr (js "g1")) as H3 by reflexivity.
  assert (batchAs otherGroupRequest = VStr (js "g2")) as H4 by reflexivity.
  assert (js "g1" <> js "g2"
          \/ method (sampleRequest 0) <> method otherGroupRequest) as H5
    by (left; discriminate).
  split; [auto 10 |].
  exact (proj1 (different_tag_or_method_different_batch
                  unit JSVal _ _ _ _ H1 H2 H3 H4 H5)).
Defined.

(** C7 as stated fails for grouping tags that are not strings.  The tags
    [{}] and [{ a: undefined }] are different values and both truthy, but
    [JSON.stringify] leaves the property without a value out, so the two
    requests have the same batch id and the second joins the batch of the
    first; the same happens with the arrays [[ undefined ]] and
    [[ null ]], which are both written [[null]]. *)
Lemma tags_with_one_serialisation_share_a_batch :
  batchable emptyObjectTagRequest
  /\ batchable undefinedPropertyTagRequest
  /\ batchAs emptyObjectTagRequest <> batchAs undefinedPropertyTagRequest
  /\ method emptyObjectTagRequest = method undefinedPropertyTagRequest
  /\ batchIdOf emptyObjectTagRequest = batchIdOf undefinedPropertyTagRequest
  /\ fst (submitAll sampleNext
            [emptyObjectTagRequest; undefinedPropertyTagRequest]
            (freshWorld []))
     = [Normal (Demux (PTimer 0) 0); Normal (Demux (PTimer 0) 1)]
  /\ awaitingBatches
       (snd (submitAll sampleNext
               [emptyObjectTagRequest; undefinedPropertyTagRequest]
               (freshWorld [])))
       !! batchIdOf emptyObjectTagRequest
     = Some (mkBatch (Some (PTimer 0))
                     [emptyObjectTagRequest; undefinedPropertyTagRequest])
  /\ stringifyValue (VArr [VArr [VUndefined]; VStr (js "POST")])
     = stringifyValue (VArr [VArr [VNull]; VStr (js "POST")]).
Proof.
  split; [reflexivity |]. split; [reflexivity |].
  split; [discriminate |]. split; [reflexivity |].
  split; [reflexivity |].
  split; [vm_compute; reflexivity |].
  split; [vm_compute; reflexivity | reflexivity].
Qed.

(** ** What a commit sends *)

(** C8.  A commit of an awaiting batch calls [apiFetch] once, with a POST to
    the batch endpoint whose data carry the validation policy
    [require-all-validate] and one object per request of the batch, in the
    order in which the requests were added; each of these objects has the
    properties path, body and headers and no other (no method, no grouping
    tag), with the values they have in its request: the path string of the
    request, or [undefined] when the request has no path, its body and its
    headers. *)
Theorem commit_sends_projected_requests :
  forall (D : Type) (batchId : jsstring) (w : World D) (u : Batch),
    awaitingBatches w !! batchId = Some u ->
    exists arg sent,
      fst (commit batchId w) = Normal (length (transport w))
      /\ transport (snd (commit batchId w)) =
         transport w ++ [mkFetch arg Pending]
      /\ getProp arg "path" = VStr (js "/wp/__experimental/batch")
      /\ getProp arg "method" = VStr (js "POST")
      /\ getProp (getProp arg "data") "validation" =
         VStr (js "require-all-validate")
      /\ getProp (getProp arg "data") "requests" = VArr sent
      /\ length sent = length (requests u)
      /\ forall i options,
          requests u !! i = Some options ->
          exists obj,
            sent !! i = Some obj
            /\ ownKeys obj = ["path"; "body"; "headers"]%string
            /\ (forall p,
                   path options = Some p -> getProp obj "path" = VStr p)
            /\ (path options = None -> getProp obj "path" = VUndefined)
            /\ getProp obj "body" = body options
            /\ getProp obj "headers" = headers options
            /\ getProp obj "batchAs" = VUndefined
            /\ getProp obj "method" = VUndefined.
Proof.
  intros D batchId w u Hu.
  exists (batchCall (map projectRequest (requests u))),
         (map projectRequest (requests u)).
  rewrite (commit_present _ _ u Hu). simpl.
  repeat (split; [reflexivity |]).
  split; [apply length_map |].
  intros i options Hi. exists (projectRequest options).
  split; [rewrite list_lookup_fmap, Hi; reflexivity |].
  split; [reflexivity |].
  split; [intros p Hp; simpl; now rewrite Hp |].
  split; [intros Hp; simpl; now rewrite Hp |].
  repeat split.
Qed.

Lemma commit_sends_projected_requests_witness :
  awaitingBatches
    (snd (submitAll sampleNext (sampleRequests 2) (freshWorld [])))
    !! batchIdOf (sampleRequest 0)
  = Some (mkBatch (Some (PTimer 0)) (sampleRequests 2))
  /\ exists arg sent,
      fst (commit (batchIdOf (sampleRequest 0))
             (snd (submitAll sampleNext (sampleRequests 2) (freshWorld []))))
      = Normal 0%nat
      /\ getProp (getProp arg "data") "requests" = VArr sent
      /\ length sent = 2%nat
      /\ exists obj,
          sent !! 1%nat = Some obj
          /\ getProp obj "path" = VStr (js "/wp/v2/template-parts/7")
          /\ getProp obj "body" = VNum 1.
Proof.
  assert (awaitingBatches
            (snd (submitAll sampleNext (sampleRequests 2) (freshWorld [])))
            !! batchIdOf (sampleRequest 0)
          = Some (mkBatch (Some (PTimer 0)) (sampleRequests 2))) as Hu
    by (vm_compute; reflexivity).
  split; [exact Hu |].
  destruct (commit_sends_projected_requests _ _ _ _ Hu)
    as (arg & sent & Hc & _ & _ & _ & _ & Hreqs & Hlen & Hitems).
  destruct (Hitems 1%nat (sampleRequest 1) eq_refl)
    as (obj & Hobj & _ & Hpath & _ & Hbody & _).
  exists arg, sent. repeat (split; [assumption |]).
  exists obj. split; [exact Hobj |].
  split; [exact (Hpath _ eq_refl) | exact Hbody].
Defined.

(** ** Reading a response that is too short *)

(** Reading past the end of the responses.  When the promise a caller
    waits on is fulfilled with a list of
    responses that is too short for the caller's index, the caller's
    promise is fulfilled, with [undefined]; it is neither rejected nor left
    pending. *)
Theorem short_response_resolves_undefined :
  forall (D R : Type) (w : World D) (c : Completion (Result R))
         (p : Promise) (requestIdx : nat) (subResponses : list JSVal),
    c = Normal (Demux p requestIdx) ->
    promiseState w p = Fulfilled subResponses ->
    (length subResponses <= requestIdx)%nat ->
    callerState w c = Some (Fulfilled VUndefined).
Proof.
  intros D R w c p requestIdx subResponses -> Hp Hlen.
  unfold callerState, demuxState. rewrite Hp.
  now rewrite nth_overflow.
Qed.

Lemma short_response_resolves_undefined_witness :
  (fst (sampleWindow 2) !! 1%nat = Some (Normal (Demux (PTimer 0) 1))
   /\ promiseState
        (run sampleNext [Expire 0; Fulfil 0 [VNum 5]] (snd (sampleWindow 2)))
        (PTimer 0) = Fulfilled [VNum 5]
   /\ (length [VNum 5] <= 1)%nat)
  /\ callerState
       (run sampleNext [Expire 0; Fulfil 0 [VNum 5]] (snd (sampleWindow 2)))
       (Normal (Demux (R := JSVal) (PTimer 0) 1))
     = Some (Fulfilled VUndefined).
Proof.
  assert (promiseState
            (run sampleNext [Expire 0; Fulfil 0 [VNum 5]]
                 (snd (sampleWindow 2)))
            (PTimer 0) = Fulfilled [VNum 5]) as Hp
    by (vm_compute; reflexivity).
  assert (length [VNum 5] <= 1)%nat as Hlen by (simpl; lia).
  split; [split; [vm_compute; reflexivity | split; assumption] |].
  exact (short_response_resolves_undefined _ JSVal _ _ _ _ _
           eq_refl Hp Hlen).
Defined.

(** ** The size trigger *)

(** C2.  A batched request that finds [idx] requests already awaiting under
    its batch id, with [idx + 1] at least [MAX_BATCH_SIZE], commits the
    batch within its own call: the call returns the promise of an
    [apiFetch] call made with all [idx + 1] requests in order, the batch
    is gone from the registry and no timer is started.  The next batched
    request for the same batch id then has index 0 in a new batch that
    holds only this request and waits for a timer of its own; nothing more
    is sent. *)
Theorem full_batch_commits_immediately :
  forall (D R : Type) (options : Options) (next : Handler D R) (w : World D),
    batchable options ->
    (MAX_BATCH_SIZE <= length (pendingRequests w (batchIdOf options)) + 1)%nat ->
    let idx := length (pendingRequests w (batchIdOf options)) in
    let flushed :=
      mkWorld (delete (batchIdOf options) (awaitingBatches w)) (timers w)
              (transport w
                 ++ [mkFetch
                       (batchCall
                          (map projectRequest
                               (pendingRequests w (batchIdOf options)
                                  ++ [options])))
                       Pending])
              (downstream w) in
    batchRequestMiddleware options next w =
    (Normal (Demux (PFetch (length (transport w))) idx), flushed)
    /\ forall (options' : Options) (next' : Handler D R),
        batchable options' ->
        batchIdOf options' = batchIdOf options ->
        batchRequestMiddleware options' next' flushed =
        (Normal (Demux (PTimer (length (timers w))) 0),
         mkWorld (<[batchIdOf options :=
                      mkBatch (Some (PTimer (length (timers w)))) [options']]>
                    (awaitingBatches w))
                 (timers w ++ [Scheduled BATCH_TIME_WINDOW (batchIdOf options)])
                 (transport flushed) (downstream w)).
Proof.
  intros D R options next w Hb Hfull idx flushed. split.
  - now apply middleware_flush.
  - intros options' next' Hb' Hid.
    assert (awaitingBatches flushed !! batchIdOf options' = None) as Hnone
      by (rewrite Hid; apply lookup_delete_eq).
    rewrite middleware_first; try assumption.
    + unfold pendingRequests. rewrite Hnone, Hid. simpl.
      now rewrite insert_delete_eq.
    + unfold pendingRequests. rewrite Hnone. simpl. unfold MAX_BATCH_SIZE. lia.
    + unfold pendingPromise. now rewrite Hnone.
Qed.

Lemma full_batch_commits_immediately_witness :
  (batchable (sampleRequest 19)
   /\ (MAX_BATCH_SIZE
       <= length (pendingRequests (snd (sampleWindow 19))
                                  (batchIdOf (sampleRequest 19))) + 1)%nat)
  /\ fst (batchRequestMiddleware (sampleRequest 19) sampleNext
            (snd (sampleWindow 19)))
     = Normal (Demux (PFetch 0) 19).
Proof.
  assert (batchable (sampleRequest 19)) as Hb by reflexivity.
  assert (MAX_BATCH_SIZE
          <= length (pendingRequests (snd (sampleWindow 19))
                                     (batchIdOf (sampleRequest 19))) + 1)%nat
    as Hfull by (vm_compute; lia).
  split; [split; assumption |].
  pose proof (proj1 (full_batch_commits_immediately
                       _ _ _ sampleNext (snd (sampleWindow 19)) Hb Hfull))
    as Heq.
  rewrite Heq. vm_compute. reflexivity.
Defined.

(** ** Removal from the registry at commit *)

Lemma commitVia_present {D : Type} (send : JSVal -> M D nat)
  (batchId : jsstring) (w : World D) (u : Batch) :
  awaitingBatches w !! batchId = Some u ->
  commitVia send batchId w =
  send (batchCall (map projectRequest (requests u)))
       (mkWorld (delete batchId (awaitingBatches w)) (timers w)
                (transport w) (downstream w)).
Proof.
  intros Hu. unfold commitVia, bind, readBatch, deleteBatch. rewrite Hu.
  reflexivity.
Qed.

(** C5.  A commit takes the batch out of the registry and only then calls
    the transport: whatever the function is that [commit] sends with, and
    whatever it does with the state, it runs in the state without the
    batch.  In particular a batched request for the same id that reaches
    the middleware while the combined request is being sent is not added
    to the batch that is sent: the call carries the requests the batch had,
    and the new request is alone in a new batch with a timer of its own.
    The call that was sent keeps its argument whatever happens afterwards,
    and a batch that later awaits under the same id is made only of
    requests that came with later calls.  While a batch stays in the
    registry a step either leaves its requests as they are or adds the
    request of the call at their end. *)
Theorem commit_removes_batch_before_sending :
  forall (D R : Type) (next : Handler D R) (batchId : jsstring)
         (w : World D) (u : Batch),
    awaitingBatches w !! batchId = Some u ->
    (forall send : JSVal -> M D nat,
        commitVia send batchId w =
        send (batchCall (map projectRequest (requests u)))
             (mkWorld (delete batchId (awaitingBatches w)) (timers w)
                      (transport w) (downstream w)))
    /\ (forall later : Options,
           batchable later ->
           batchIdOf later = batchId ->
           transport (snd (commitVia (reentrantSend next later) batchId w)) =
             transport w
               ++ [mkFetch (batchCall (map projectRequest (requests u)))
                           Pending]
           /\ awaitingBatches
                (snd (commitVia (reentrantSend next later) batchId w))
                !! batchId
              = Some (mkBatch (Some (PTimer (length (timers w)))) [later]))
    /\ awaitingBatches (snd (commit batchId w)) !! batchId = None
    /\ (forall evs,
           exists f,
             transport (run next evs (snd (commit batchId w)))
               !! length (transport w) = Some f
             /\ request f = batchCall (map projectRequest (requests u)))
    /\ (forall evs u',
           awaitingBatches (run next evs (snd (commit batchId w))) !! batchId
           = Some u' ->
           Forall (fun options => In (Call options) evs) (requests u'))
    /\ (forall ev w1 b u1 u2,
           awaitingBatches w1 !! b = Some u1 ->
           awaitingBatches (step next ev w1) !! b = Some u2 ->
           requests u2 = requests u1
           \/ exists options,
               ev = Call options /\ requests u2 = requests u1 ++ [options]).
Proof.
  intros D R next batchId w u Hu.
  split; [intros send; now apply commitVia_present |].
  split.
  { intros later Hb Hid.
    rewrite (commitVia_present _ _ _ _ Hu). unfold reentrantSend, bind.
    rewrite middleware_first.
    - unfold pendingRequests. rewrite Hid. simpl.
      rewrite lookup_delete_eq. simpl.
      split; [reflexivity | apply lookup_insert_eq].
    - assumption.
    - unfold pendingRequests. rewrite Hid. simpl.
      rewrite lookup_delete_eq. simpl. unfold MAX_BATCH_SIZE. lia.
    - unfold pendingPromise. rewrite Hid. simpl.
      now rewrite lookup_delete_eq. }
  rewrite (commit_present _ _ u Hu). simpl.
  split; [apply lookup_delete_eq |].
  split; [| split].
  - intros evs.
    match goal with
    | |- context [run next evs ?w'] =>
        assert (transport w' !! length (transport w)
                = Some (mkFetch (batchCall (map projectRequest (requests u)))
                                Pending)) as Hsent
          by (simpl; apply list_lookup_middle; reflexivity);
        destruct (run_transport next evs _ _ _ Hsent) as (f & Hf & Hreq & _)
    end.
    exists f. split; [exact Hf | exact Hreq].
  - intros evs u'.
    apply (run_registry next evs (fun options => In (Call options) evs));
      [auto |].
    simpl. intros u0. now rewrite lookup_delete_eq.
  - intros ev w1 b u1 u2 H1 H2. apply step_registry in H2.
    now rewrite H1 in H2.
Qed.

Lemma commit_removes_batch_before_sending_witness :
  awaitingBatches (snd (sampleWindow 2)) !! batchIdOf (sampleRequest 0)
  = Some (mkBatch (Some (PTimer 0)) (sampleRequests 2))
  /\ awaitingBatches
       (snd (commit (batchIdOf (sampleRequest 0)) (snd (sampleWindow 2))))
       !! batchIdOf (sampleRequest 0) = None.
Proof.
  assert (awaitingBatches (snd (sampleWindow 2))
            !! batchIdOf (sampleRequest 0)
          = Some (mkBatch (Some (PTimer 0)) (sampleRequests 2))) as Hu
    by (vm_compute; reflexivity).
  split; [exact Hu |].
  exact (proj1 (proj2 (proj2 (commit_removes_batch_before_sending
                                _ _ sampleNext _ _ _ Hu)))).
Defined.

(** ** The time window *)

Section Window.

Context {D R : Type}.
Implicit Types (w : World D) (next : Handler D R) (options : Options).
Implicit Types (rs pend : list Options) (batchId : jsstring).

(** Requests that join a window that is open. *)
Lemma submitAll_join next batchId p rs :
  forall w pend,
    allFor batchId rs ->
    awaitingBatches w !! batchId = Some (mkBatch (Some p) pend) ->
    (length pend + length rs < MAX_BATCH_SIZE)%nat ->
    submitAll next rs w =
    (map (fun i => Normal (Demux p i)) (seq (length pend) (length rs)),
     mkWorld (<[batchId := mkBatch (Some p) (pend ++ rs)]> (awaitingBatches w))
             (timers w) (transport w) (downstream w)).
Proof.
  induction rs as [| o rs IH]; intros w pend Hall Hreg Hlen.
  - simpl. rewrite app_nil_r, insert_id by assumption. now destruct w.
  - apply Forall_cons in Hall as [[Hb <-] Hall]. simpl in Hlen.
    assert (pendingRequests w (batchIdOf o) = pend) as Hpend
      by (unfold pendingRequests; now rewrite Hreg).
    assert (pendingPromise w (batchIdOf o) = Some p) as Hprom
      by (unfold pendingPromise; now rewrite Hreg).
    simpl submitAll.
    rewrite (middleware_join _ _ _ p), Hpend by (rewrite ?Hpend; auto; lia).
    rewrite (IH _ (pend ++ [o])); try assumption.
    + simpl. rewrite insert_insert_eq, <- app_assoc, length_app. simpl.
      now rewrite Nat.add_1_r.
    + simpl. apply lookup_insert_eq.
    + rewrite length_app. simpl. lia.
Qed.

(** The requests of one window, handed to the middleware when nothing
    awaits under their batch id. *)
Lemma submitAll_window next batchId rs w :
  awaitingBatches w !! batchId = None ->
  rs <> [] ->
  (length rs < MAX_BATCH_SIZE)%nat ->
  allFor batchId rs ->
  submitAll next rs w =
  (map (fun i => Normal (Demux (PTimer (length (timers w))) i))
       (seq 0 (length rs)),
   mkWorld (<[batchId := mkBatch (Some (PTimer (length (timers w)))) rs]>
              (awaitingBatches w))
           (timers w ++ [Scheduled BATCH_TIME_WINDOW batchId])
           (transport w) (downstream w)).
Proof.
  intros Hnone Hne Hlen Hall.
  destruct rs as [| o rs]; [contradiction |].
  apply Forall_cons in Hall as [[Hb <-] Hall]. simpl in Hlen.
  assert (pendingRequests w (batchIdOf o) = []) as Hpend
    by (unfold pendingRequests; now rewrite Hnone).
  assert (pendingPromise w (batchIdOf o) = None) as Hprom
    by (unfold pendingPromise; now rewrite Hnone).
  simpl submitAll.
  rewrite middleware_first, Hpend by (rewrite ?Hpend; simpl; auto; lia).
  rewrite (submitAll_join next (batchIdOf o) (PTimer (length (timers w))) rs
             _ [o]); try assumption.
  - simpl. now rewrite insert_insert_eq.
  - simpl. apply lookup_insert_eq.
Qed.

Lemma quiet_spec batchId w :
  quiet batchId w = true <->
  awaitingBatches w !! batchId = None
  /\ Forall (fun tm => waitsFor batchId tm = false) (timers w).
Proof.
  unfold quiet. destruct (awaitingBatches w !! batchId).
  - split; [discriminate | intros [? _]; discriminate].
  - rewrite forallb_forall, Forall_forall. split.
    + intros H. split; [reflexivity |]. intros tm Hin.
      apply negb_true_iff, H. now apply list_elem_of_In.
    + intros [_ H] tm Hin. apply negb_true_iff, H. now apply list_elem_of_In.
Qed.

(** The timer of the window expires. *)
Lemma expire_window batchId rs w delay :
  expire (length (timers w))
         (mkWorld (<[batchId := mkBatch (Some (PTimer (length (timers w)))) rs]>
                     (awaitingBatches w))
                  (timers w ++ [Scheduled delay batchId])
                  (transport w) (downstream w)) =
  mkWorld (delete batchId (awaitingBatches w))
          (timers w ++ [Ran (Some (length (transport w)))])
          (transport w ++ [mkFetch (batchCall (map projectRequest rs)) Pending])
          (downstream w).
Proof.
  rewrite (expire_present _ _ delay batchId
             (mkBatch (Some (PTimer (length (timers w)))) rs)).
  - simpl. rewrite delete_insert_eq.
    rewrite insert_app_r_alt, Nat.sub_diag by lia. reflexivity.
  - simpl. apply list_lookup_middle. reflexivity.
  - simpl. apply lookup_insert_eq.
Qed.

(** The callers of a window follow the promise of the one call that the
    expiry of its timer made. *)
Lemma window_callers_follow next batchId rs w :
  awaitingBatches w !! batchId = None ->
  rs <> [] ->
  (length rs < MAX_BATCH_SIZE)%nat ->
  allFor batchId rs ->
  forall evs i c,
    fst (submitAll next rs w) !! i = Some c ->
    callerState
      (run next evs (expire (length (timers w)) (snd (submitAll next rs w))))
      c
    = Some
        match fetchState
                (run next evs
                     (expire (length (timers w)) (snd (submitAll next rs w))))
                (length (transport w)) with
        | Pending => Pending
        | Fulfilled subResponses => Fulfilled (nth i subResponses VUndefined)
        | Rejected reason => Rejected reason
        end.
Proof.
  intros Hnone Hne Hlen Hall evs i c.
  rewrite (submitAll_window next batchId) by assumption. simpl fst. simpl snd.
  rewrite expire_window. intros Hc.
  rewrite list_lookup_fmap in Hc.
  destruct (seq 0 (length rs) !! i) as [j |] eqn:Hj; [| discriminate].
  apply lookup_seq in Hj as [-> _]. simpl in Hc. injection Hc as <-.
  unfold callerState, demuxState, promiseState.
  erewrite run_timer_ran
    by (simpl; apply list_lookup_middle; reflexivity).
  reflexivity.
Qed.

(** Traffic for other batches, requests that are passed on and answers of
    the transport leave an open window as it is. *)
Lemma foreign_step_keeps_window next batchId t rs w ev :
  windowOpen batchId t rs w ->
  foreign batchId w ev ->
  windowOpen batchId t rs (step next ev w).
Proof.
  intros [Hreg Htimer] Hforeign.
  destruct ev as [options | t' | k resps | k reason]; simpl in *.
  - destruct (bypasses options) as [[|] | e] eqn:Hb.
    + rewrite middleware_bypass by assumption. now split.
    + destruct (middleware_batchable options next w Hb)
        as (p & tms & sent & regs & -> & Hframe & _).
      split; simpl.
      * rewrite Hframe; [assumption |]. intros Heq. now apply Hforeign.
      * now apply lookup_app_l_Some.
    + rewrite (middleware_throw _ _ _ e) by assumption. now split.
  - unfold expire.
    destruct (timers w !! t') as [[delay b | | r] |] eqn:Ht'; try now split.
    assert (b <> batchId) as Hb by (intros ->; now apply (Hforeign delay)).
    assert (t' <> t) as Hne by (intros ->; congruence).
    destruct (awaitingBatches w !! b) as [u |] eqn:Hu.
    + rewrite (commit_present _ _ u Hu). split; simpl.
      * now rewrite lookup_delete_ne.
      * now rewrite list_lookup_insert_ne.
    + rewrite (commit_absent _ _ Hu). split; simpl.
      * assumption.
      * now rewrite list_lookup_insert_ne.
  - unfold settle.
    destruct (transport w !! k) as [[arg [| |]] |]; now split.
  - unfold settle.
    destruct (transport w !! k) as [[arg [| |]] |]; now split.
Qed.

(** A further request joins an open window at the next index. *)
Lemma window_join next batchId t rs w options :
  windowOpen batchId t rs w ->
  batchable options ->
  batchIdOf options = batchId ->
  (length rs + 1 < MAX_BATCH_SIZE)%nat ->
  fst (batchRequestMiddleware options next w) =
    Normal (Demux (PTimer t) (length rs))
  /\ windowOpen batchId t (rs ++ [options])
                (snd (batchRequestMiddleware options next w))
  /\ transport (snd (batchRequestMiddleware options next w)) = transport w.
Proof.
  intros [Hreg Htimer] Hb <- Hlen.
  assert (pendingRequests w (batchIdOf options) = rs) as Hpend
    by (unfold pendingRequests; now rewrite Hreg).
  rewrite (middleware_join _ _ _ (PTimer t)), Hpend.
  - simpl. split; [reflexivity |]. split; [| reflexivity].
    split; simpl; [apply lookup_insert_eq | assumption].
  - assumption.
  - now rewrite Hpend.
  - unfold pendingPromise. now rewrite Hreg.
Qed.

(** When the timer of an open window expires, one call is made, with the
    requests of the window. *)
Lemma window_expiry batchId t rs w :
  windowOpen batchId t rs w ->
  transport (expire t w) =
    transport w ++ [mkFetch (batchCall (map projectRequest rs)) Pending]
  /\ timers (expire t w) !! t = Some (Ran (Some (length (transport w))))
  /\ awaitingBatches (expire t w) !! batchId = None.
Proof.
  intros [Hreg Htimer].
  rewrite (expire_present _ _ _ _ _ Htimer Hreg). simpl.
  split; [reflexivity |]. split.
  - apply list_lookup_insert_eq. eapply lookup_lt_Some. eassumption.
  - apply lookup_delete_eq.
Qed.

End Window.

Lemma sampleRequests_allFor (n : nat) :
  allFor (batchIdOf (sampleRequest 0)) (sampleRequests n).
Proof.
  unfold allFor, sampleRequests. apply Forall_map, Forall_forall.
  intros i _. split; reflexivity.
Qed.

(** The time window below the size limit.  Take fewer than
    [MAX_BATCH_SIZE] batched requests with
    one batch id, at least one, and hand them to the middleware one after
    the other when no batch awaits under that id and no waiting timer is
    set for it.  The caller of the i-th request receives the promise of the
    window's timer, demultiplexed at index i; nothing is sent while the
    window is open; when the timer expires exactly one call of [apiFetch]
    is made, with the requests in the order in which they were handed in,
    and nothing is left awaiting or scheduled for the id; and whenever the
    transport has fulfilled that call with a list of responses, the promise
    of the i-th caller is fulfilled with the element at index i. *)
Theorem window_batch_single_request :
  forall (D R : Type) (next : Handler D R) (w0 : World D)
         (batchId : jsstring) (rs : list Options),
    quiet batchId w0 = true ->
    rs <> [] ->
    (length rs < MAX_BATCH_SIZE)%nat ->
    allFor batchId rs ->
    let t := length (timers w0) in
    let k := length (transport w0) in
    let hs := fst (submitAll next rs w0) in
    let w1 := snd (submitAll next rs w0) in
    let w2 := expire t w1 in
    hs = map (fun i => Normal (Demux (PTimer t) i)) (seq 0 (length rs))
    /\ transport w1 = transport w0
    /\ transport w2 =
       transport w0 ++ [mkFetch (batchCall (map projectRequest rs)) Pending]
    /\ quiet batchId w2 = true
    /\ forall (evs : list Event) (subResponses : list JSVal),
        fetchState (run next evs w2) k = Fulfilled subResponses ->
        forall i c,
          hs !! i = Some c ->
          callerState (run next evs w2) c =
          Some (Fulfilled (nth i subResponses VUndefined)).
Proof.
  intros D R next w0 batchId rs Hquiet Hne Hlen Hall t k hs w1 w2.
  apply quiet_spec in Hquiet as [Hnone Htimers].
  split; [| split; [| split; [| split]]].
  - subst hs. now rewrite (submitAll_window next batchId).
  - subst w1. now rewrite (submitAll_window next batchId).
  - subst w2 w1 t. rewrite (submitAll_window next batchId) by assumption.
    simpl snd. now rewrite expire_window.
  - subst w2 w1 t. rewrite (submitAll_window next batchId) by assumption.
    simpl snd. rewrite expire_window. apply quiet_spec. simpl. split.
    + apply lookup_delete_eq.
    + apply Forall_app. split; [assumption |]. now repeat constructor.
  - intros evs subResponses Hk i c Hc. subst hs w2 w1 t k.
    rewrite (window_callers_follow next batchId) with (i := i)
      by assumption.
    now rewrite Hk.
Qed.

Lemma window_batch_single_request_witness :
  (quiet (batchIdOf (sampleRequest 0)) (freshWorld (@nil Options)) = true
   /\ sampleRequests 3 <> []
   /\ (length (sampleRequests 3) < MAX_BATCH_SIZE)%nat
   /\ allFor (batchIdOf (sampleRequest 0)) (sampleRequests 3)
   /\ fetchState
        (run sampleNext [Fulfil 0 [VNum 10; VNum 11; VNum 12]]
             (expire 0 (snd (sampleWindow 3)))) 0
      = Fulfilled [VNum 10; VNum 11; VNum 12]
   /\ fst (sampleWindow 3) !! 1%nat = Some (Normal (Demux (PTimer 0) 1)))
  /\ transport (expire 0 (snd (sampleWindow 3))) =
     [mkFetch (batchCall (map projectRequest (sampleRequests 3))) Pending]
  /\ callerState
       (run sampleNext [Fulfil 0 [VNum 10; VNum 11; VNum 12]]
            (expire 0 (snd (sampleWindow 3))))
       (Normal (Demux (R := JSVal) (PTimer 0) 1))
     = Some (Fulfilled (VNum 11)).
Proof.
  assert (quiet (batchIdOf (sampleRequest 0)) (freshWorld (@nil Options))
          = true) as Hq by reflexivity.
  assert (sampleRequests 3 <> []) as Hne by discriminate.
  assert (length (sampleRequests 3) < MAX_BATCH_SIZE)%nat as Hlen
    by (vm_compute; lia).
  assert (allFor (batchIdOf (sampleRequest 0)) (sampleRequests 3)) as Hall
    by (repeat constructor).
  assert (fetchState
            (run sampleNext [Fulfil 0 [VNum 10; VNum 11; VNum 12]]
                 (expire 0 (snd (sampleWindow 3)))) 0
          = Fulfilled [VNum 10; VNum 11; VNum 12]) as Hk
    by (vm_compute; reflexivity).
  assert (fst (sampleWindow 3) !! 1%nat = Some (Normal (Demux (PTimer 0) 1)))
    as Hc by (vm_compute; reflexivity).
  destruct (window_batch_single_request
              _ _ sampleNext (freshWorld []) _ _ Hq Hne Hlen Hall)
    as (_ & _ & Hsent & _ & Hcallers).
  split; [auto 10 |]. split; [exact Hsent |].
  exact (Hcallers _ _ Hk _ _ Hc).
Defined.

(** More requests than the size limit.  Twenty-one batched requests with
    one batch id, handed to a freshly loaded module before any timer
    expires: the twentieth call has already sent the first twenty, and once
    the timers have expired two combined requests have been made, one with
    twenty requests and one with the last; no call carries all
    twenty-one. *)
Lemma window_of_21_is_split :
  allFor (batchIdOf (sampleRequest 0)) (sampleRequests 21)
  /\ quiet (batchIdOf (sampleRequest 0)) (freshWorld (@nil Options)) = true
  /\ map request (transport (snd (sampleWindow 21))) =
     [batchCall (map projectRequest (sampleRequests 20))]
  /\ map request
       (transport (run sampleNext [Expire 0; Expire 1] (snd (sampleWindow 21))))
     = [batchCall (map projectRequest (sampleRequests 20));
        batchCall [projectRequest (sampleRequest 20)]]
  /\ ~ In (batchCall (map projectRequest (sampleRequests 21)))
          (map request
             (transport
                (run sampleNext [Expire 0; Expire 1] (snd (sampleWindow 21)))))
  /\ transport (expire 0 (snd (sampleWindow 21))) <>
     [mkFetch (batchCall (map projectRequest (sampleRequests 21))) Pending].
Proof.
  assert (map request
            (transport
               (run sampleNext [Expire 0; Expire 1] (snd (sampleWindow 21))))
          = [batchCall (map projectRequest (sampleRequests 20));
             batchCall [projectRequest (sampleRequest 20)]]) as Hsent
    by (vm_compute; reflexivity).
  split; [apply sampleRequests_allFor |].
  split; [reflexivity |].
  split; [vm_compute; reflexivity |].
  split; [exact Hsent |].
  split; [| intros H; apply (f_equal (@length Fetch)) in H;
            vm_compute in H; discriminate H].
  rewrite Hsent. intros [H | [H | []]].
  - apply (f_equal (fun v =>
                      match getProp (getProp v "data") "requests" with
                      | VArr l => length l
                      | _ => 0%nat
                      end)) in H.
    vm_compute in H. discriminate H.
  - apply (f_equal (fun v =>
                      match getProp (getProp v "data") "requests" with
                      | VArr l => length l
                      | _ => 0%nat
                      end)) in H.
    vm_compute in H. discriminate H.
Qed.

(** ** Rejection by the transport *)

Section Rejection.

Context {D R : Type}.
Implicit Types (w : World D) (next : Handler D R).

Lemma run_fetch_settled next evs w k o :
  fetchState w k = o -> o <> Pending ->
  fetchState (run next evs w) k = o.
Proof.
  unfold fetchState. intros Hk Ho.
  destruct (transport w !! k) as [f |] eqn:Hf; [| now destruct Ho].
  destruct (run_transport next evs w k f Hf) as (f' & -> & _ & Hout).
  rewrite Hout; congruence.
Qed.

(** Settling a call makes no new call. *)
Lemma settle_sends_nothing k o w :
  map request (transport (settle k o w)) = map request (transport w).
Proof.
  unfold settle.
  destruct (transport w !! k) as [[arg [| |]] |] eqn:Hk; try reflexivity.
  simpl. rewrite list_fmap_insert. simpl.
  apply list_insert_id. now rewrite list_lookup_fmap, Hk.
Qed.

(** The batch of a time window whose combined request the transport
    rejects: every caller's promise is rejected with the same reason. *)
Lemma window_batch_rejection next (w0 : World D) batchId rs :
  quiet batchId w0 = true ->
  rs <> [] ->
  (length rs < MAX_BATCH_SIZE)%nat ->
  allFor batchId rs ->
  forall evs reason,
    fetchState
      (run next evs (expire (length (timers w0)) (snd (submitAll next rs w0))))
      (length (transport w0)) = Rejected reason ->
    forall i c,
      fst (submitAll next rs w0) !! i = Some c ->
      callerState
        (run next evs
             (expire (length (timers w0)) (snd (submitAll next rs w0))))
        c
      = Some (Rejected reason).
Proof.
  intros Hquiet Hne Hlen Hall evs reason Hk i c Hc.
  apply quiet_spec in Hquiet as [Hnone _].
  rewrite (window_callers_follow next batchId) with (i := i) by assumption.
  now rewrite Hk.
Qed.

End Rejection.

(** ** The timer that a size-triggered commit leaves behind *)

Section Orphan.

Context {D R : Type}.
Implicit Types (w : World D) (next : Handler D R).

Lemma submitAll_app next (rs1 rs2 : list Options) :
  forall w,
    submitAll next (rs1 ++ rs2) w =
    (fst (submitAll next rs1 w)
       ++ fst (submitAll next rs2 (snd (submitAll next rs1 w))),
     snd (submitAll next rs2 (snd (submitAll next rs1 w)))).
Proof.
  induction rs1 as [| o rs1 IH]; intros w.
  - simpl. now destruct (submitAll next rs2 w).
  - simpl. destruct (batchRequestMiddleware o next w) as [c w1].
    rewrite IH. destruct (submitAll next rs1 w1) as [cs1 w2]. simpl.
    now destruct (submitAll next rs2 w2).
Qed.

(** Whatever the requests are: when the [MAX_BATCH_SIZE]-th request of a
    window commits the batch, the timer of the window stays scheduled, and
    its callback throws when it runs with nothing awaiting. *)
Lemma full_window_leaves_timer next (w0 : World D) batchId rs options :
  quiet batchId w0 = true ->
  (length rs + 1 = MAX_BATCH_SIZE)%nat ->
  allFor batchId (rs ++ [options]) ->
  let w1 := snd (submitAll next (rs ++ [options]) w0) in
  awaitingBatches w1 !! batchId = None
  /\ timers w1 = timers w0 ++ [Scheduled BATCH_TIME_WINDOW batchId]
  /\ transport w1 =
     transport w0
       ++ [mkFetch (batchCall (map projectRequest (rs ++ [options]))) Pending]
  /\ commit batchId w1 = (Throw TypeError, w1)
  /\ timers (expire (length (timers w0)) w1) = timers w0 ++ [Ran None]
  /\ transport (expire (length (timers w0)) w1) = transport w1.
Proof.
  intros Hquiet Hlen Hall w1.
  apply quiet_spec in Hquiet as [Hnone _].
  apply Forall_app in Hall as [Hall Hlast].
  apply Forall_cons in Hlast as [[Hb Hid] _].
  assert (rs <> []) as Hne
    by (intros ->; unfold MAX_BATCH_SIZE in Hlen; simpl in Hlen; lia).
  assert (w1 =
          mkWorld (delete batchId (awaitingBatches w0))
                  (timers w0 ++ [Scheduled BATCH_TIME_WINDOW batchId])
                  (transport w0
                     ++ [mkFetch
                           (batchCall (map projectRequest (rs ++ [options])))
                           Pending])
                  (downstream w0)) as ->.
  { subst w1. rewrite submitAll_app. simpl snd.
    rewrite (submitAll_window next batchId) by (auto; lia). simpl snd.
    simpl submitAll.
    rewrite middleware_flush.
    - rewrite Hid. unfold pendingRequests. simpl.
      rewrite lookup_insert_eq. simpl. now rewrite delete_insert_eq.
    - assumption.
    - rewrite Hid. unfold pendingRequests. simpl.
      rewrite lookup_insert_eq. simpl. lia. }
  simpl.
  assert (forall sent : list Fetch,
             awaitingBatches
               (mkWorld (delete batchId (awaitingBatches w0))
                        (timers w0 ++ [Scheduled BATCH_TIME_WINDOW batchId])
                        sent (downstream w0)) !! batchId = None) as Hgone
    by (intros sent; apply lookup_delete_eq).
  split; [apply lookup_delete_eq |].
  split; [reflexivity |]. split; [reflexivity |].
  split; [now apply commit_absent |].
  rewrite (expire_absent _ _ BATCH_TIME_WINDOW batchId).
  - simpl. rewrite insert_app_r_alt, Nat.sub_diag by lia. now split.
  - simpl. apply list_lookup_middle. reflexivity.
  - apply Hgone.
Qed.

End Orphan.

(** C3 (the code at the failing input).  Twenty batched requests with one
    batch id reach a freshly loaded module before the timer of the first
    expires.  The twentieth call commits the batch, but [clearTimeout] was
    given the promise of the batch and the timer is still scheduled.  When
    it expires, [commit] finds nothing under the batch id and throws a
    TypeError; [resolve] is never called, so the promise the first nineteen
    callers wait on stays pending whatever happens later.  If a
    twenty-first request has arrived in the meantime, the same timer
    commits the new batch: a second combined request goes out. *)
Theorem orphaned_timer_callback_throws :
  let batchId := batchIdOf (sampleRequest 0) in
  let w20 := snd (sampleWindow 20) in
  let w21 := snd (sampleWindow 21) in
  fst (sampleWindow 20) =
    map (fun i => Normal (Demux (PTimer 0) i)) (seq 0 19)
    ++ [Normal (Demux (PFetch 0) 19)]
  /\ map request (transport w20) =
     [batchCall (map projectRequest (sampleRequests 20))]
  /\ awaitingBatches w20 !! batchId = None
  /\ timers w20 = [Scheduled BATCH_TIME_WINDOW batchId]
  /\ commit batchId w20 = (Throw TypeError, w20)
  /\ timers (expire 0 w20) = [Ran None]
  /\ (forall evs i,
         callerState (run sampleNext evs (expire 0 w20))
                     (Normal (Demux (R := JSVal) (PTimer 0) i))
         = Some Pending)
  /\ map request (transport (expire 0 w21)) =
     [batchCall (map projectRequest (sampleRequests 20));
      batchCall [projectRequest (sampleRequest 20)]].
Proof.
  intros batchId w20 w21.
  assert (awaitingBatches w20 !! batchId = None) as Hnone
    by (vm_compute; reflexivity).
  assert (timers (expire 0 w20) = [Ran None]) as Hran
    by (vm_compute; reflexivity).
  split; [vm_compute; reflexivity |].
  split; [vm_compute; reflexivity |].
  split; [exact Hnone |].
  split; [vm_compute; reflexivity |].
  split; [now apply commit_absent |].
  split; [exact Hran |].
  split; [| vm_compute; reflexivity].
  intros evs i. unfold callerState, demuxState, promiseState.
  rewrite (run_timer_ran sampleNext evs (expire 0 w20) 0 None)
    by (rewrite Hran; reflexivity).
  reflexivity.
Qed.

(** C6 (the code at the failing input).  Twenty batched requests with one
    batch id reach a freshly loaded module, the twentieth commits the
    batch, and the transport rejects the combined request with [E].  The
    promise of the twentieth caller is rejected with [E].  The promises of
    the first nineteen are not: they wait on the promise of the timer, and
    stay pending when the timer has expired, whatever happens later.  No
    further call is made. *)
Theorem size_commit_rejection_reaches_one_caller :
  let E := VStr (js "E") in
  let settled :=
    run sampleNext [Reject 0 E; Expire 0] (snd (sampleWindow 20)) in
  map request (transport settled) =
    [batchCall (map projectRequest (sampleRequests 20))]
  /\ forall evs,
      callerState (run sampleNext evs settled)
                  (Normal (Demux (R := JSVal) (PFetch 0) 19))
      = Some (Rejected E)
      /\ forall i,
          (i < 19)%nat ->
          fst (sampleWindow 20) !! i = Some (Normal (Demux (PTimer 0) i))
          /\ callerState (run sampleNext evs settled)
                         (Normal (Demux (R := JSVal) (PTimer 0) i))
             = Some Pending.
Proof.
  intros E settled.
  assert (timers settled !! 0%nat = Some (Ran None)) as Hran
    by (vm_compute; reflexivity).
  assert (fetchState settled 0 = Rejected E) as Hrej
    by (vm_compute; reflexivity).
  split; [vm_compute; reflexivity |].
  intros evs. split.
  - unfold callerState, demuxState, promiseState.
    rewrite (run_fetch_settled sampleNext evs settled 0 (Rejected E));
      [reflexivity | assumption | discriminate].
  - intros i Hi. split.
    + do 19 (destruct i as [| i]; [vm_compute; reflexivity |]). lia.
    + unfold callerState, demuxState, promiseState.
      now rewrite (run_timer_ran sampleNext evs settled 0 None Hran).
Qed.

(** C1 (the code at the failing input).  Twenty batched requests with one
    batch id reach a freshly loaded module within the time window, and the
    transport answers the combined request with twenty responses.  One
    combined request has been made, with the twenty requests in the order
    in which they came, and the promise of the twentieth caller is
    fulfilled with the response at index 19.  The promises of the first
    nineteen callers are not fulfilled with the responses at their
    indexes: they wait on the promise of the timer, whose callback throws
    when the timer expires, and stay pending whatever happens later. *)
Theorem full_window_answer_reaches_one_caller :
  let answered :=
    run sampleNext [Fulfil 0 (sampleResponses 20); Expire 0]
        (snd (sampleWindow 20)) in
  allFor (batchIdOf (sampleRequest 0)) (sampleRequests 20)
  /\ map request (transport answered) =
     [batchCall (map projectRequest (sampleRequests 20))]
  /\ fetchState answered 0 = Fulfilled (sampleResponses 20)
  /\ fst (sampleWindow 20) !! 19%nat = Some (Normal (Demux (PFetch 0) 19))
  /\ forall evs,
      callerState (run sampleNext evs answered)
                  (Normal (Demux (R := JSVal) (PFetch 0) 19))
      = Some (Fulfilled (VNum 119))
      /\ forall i,
          (i < 19)%nat ->
          fst (sampleWindow 20) !! i = Some (Normal (Demux (PTimer 0) i))
          /\ callerState (run sampleNext evs answered)
                         (Normal (Demux (R := JSVal) (PTimer 0) i))
             = Some Pending.
Proof.
  intros answered.
  assert (timers answered !! 0%nat = Some (Ran None)) as Hran
    by (vm_compute; reflexivity).
  assert (fetchState answered 0 = Fulfilled (sampleResponses 20)) as Hful
    by (vm_compute; reflexivity).
  split; [apply sampleRequests_allFor |].
  split; [vm_compute; reflexivity |].
  split; [exact Hful |].
  split; [vm_compute; reflexivity |].
  intros evs. split.
  - unfold callerState, demuxState, promiseState.
    rewrite (run_fetch_settled sampleNext evs answered 0
               (Fulfilled (sampleResponses 20)));
      [reflexivity | assumption | discriminate].
  - intros i Hi. split.
    + do 19 (destruct i as [| i]; [vm_compute; reflexivity |]). lia.
    + unfold callerState, demuxState, promiseState.
      now rewrite (run_timer_ran sampleNext evs answered 0 None Hran).
Qed.

(** C10 (the code at the failing input).  Twenty batched requests with one
    batch id reach a freshly loaded module within the time window, and the
    transport answers the combined request with a list of two responses.
    The twentieth caller, whose index 19 is out of range, is fulfilled with
    [undefined].  The callers with the indexes 2 to 18 are out of range as
    well, but their promises are not fulfilled with [undefined]: they wait
    on the promise of the timer, whose callback throws when the timer
    expires, and stay pending whatever happens later. *)
Theorem short_answer_to_full_window :
  let answered :=
    run sampleNext [Fulfil 0 [VNum 100; VNum 101]; Expire 0]
        (snd (sampleWindow 20)) in
  fetchState answered 0 = Fulfilled [VNum 100; VNum 101]
  /\ forall evs,
      callerState (run sampleNext evs answered)
                  (Normal (Demux (R := JSVal) (PFetch 0) 19))
      = Some (Fulfilled VUndefined)
      /\ forall i,
          (2 <= i < 19)%nat ->
          fst (sampleWindow 20) !! i = Some (Normal (Demux (PTimer 0) i))
          /\ callerState (run sampleNext evs answered)
                         (Normal (Demux (R := JSVal) (PTimer 0) i))
             = Some Pending.
Proof.
  intros answered.
  assert (timers answered !! 0%nat = Some (Ran None)) as Hran
    by (vm_compute; reflexivity).
  assert (fetchState answered 0 = Fulfilled [VNum 100; VNum 101]) as Hful
    by (vm_compute; reflexivity).
  split; [exact Hful |].
  intros evs. split.
  - unfold callerState, demuxState, promiseState.
    rewrite (run_fetch_settled sampleNext evs answered 0
               (Fulfilled [VNum 100; VNum 101]));
      [reflexivity | assumption | discriminate].
  - intros i [_ Hi]. split.
    + do 19 (destruct i as [| i]; [vm_compute; reflexivity |]). lia.
    + unfold callerState, demuxState, promiseState.
      now rewrite (run_timer_ran sampleNext evs answered 0 None Hran).
Qed.

(** * Further properties of the batching middleware *)

(** ** The path predicate *)

Lemma startsWith_spec (needle hay : jsstring) :
  startsWith needle hay = true <-> exists b, hay = needle ++ b.
Proof.
  revert hay. induction needle as [| c needle IH]; intros hay.
  - simpl. split; eauto.
  - destruct hay as [| d hay]; simpl.
    + split; [discriminate | intros [b Hb]; discriminate].
    + rewrite andb_true_iff, N.eqb_eq, IH. split.
      * intros [-> [b ->]]. eauto.
      * intros [b [= -> ->]]. eauto.
Qed.

Lemma indexOfFrom_none (needle hay : jsstring) :
  forall i : Z,
    (0 <= i)%Z ->
    indexOfFrom needle hay i = (-1)%Z <->
    ~ exists a b, hay = a ++ needle ++ b.
Proof.
  induction hay as [| c hay IH]; intros i Hi; simpl.
  - destruct (startsWith needle []) eqn:Hs.
    + apply startsWith_spec in Hs as [b Hb]. split; [lia |].
      intros Hno. exfalso. apply Hno. now exists [], b.
    + split; [| reflexivity]. intros _ (a & b & Hab).
      assert (startsWith needle [] = true) as Hs'; [| congruence].
      apply startsWith_spec.
      destruct a; [| discriminate]. destruct needle; [| discriminate].
      now exists [].
  - destruct (startsWith needle (c :: hay)) eqn:Hs.
    + apply startsWith_spec in Hs as [b Hb]. split; [lia |].
      intros Hno. exfalso. apply Hno. now exists [], b.
    + rewrite IH by lia. split.
      * intros Hno (a & b & Hab). destruct a as [| a0 a].
        -- assert (startsWith needle (c :: hay) = true) as Hs';
             [| congruence].
           apply startsWith_spec. now exists b.
        -- injection Hab as _ ->. apply Hno. eauto.
      * intros Hno (a & b & ->). apply Hno. now exists (c :: a), b.
Qed.

Lemma indexOfFrom_found (needle hay : jsstring) :
  forall i : Z,
    indexOfFrom needle hay i <> (-1)%Z ->
    exists a b, hay = a ++ needle ++ b.
Proof.
  induction hay as [| c hay IH]; intros i Hfound; simpl in Hfound.
  - destruct (startsWith needle []) eqn:Hs; [| contradiction].
    apply startsWith_spec in Hs as [b Hb]. now exists [], b.
  - destruct (startsWith needle (c :: hay)) eqn:Hs.
    + apply startsWith_spec in Hs as [b Hb]. now exists [], b.
    + destruct (IH _ Hfound) as (a & b & ->). now exists (c :: a), b.
Qed.

(** X1.  [endpointSupportsBatch] accepts exactly the paths that contain
    [/v2/template-parts] somewhere: at the start, in the middle or at the
    end, whatever comes before and after. *)
Theorem endpointSupportsBatch_iff_contains :
  forall p : jsstring,
    endpointSupportsBatch p = true <->
    exists a b, p = a ++ js "/v2/template-parts" ++ b.
Proof.
  intros p. unfold endpointSupportsBatch, indexOf.
  rewrite negb_true_iff, Z.eqb_neq. split.
  - apply indexOfFrom_found.
  - intros Hex Hnone.
    apply (indexOfFrom_none (js "/v2/template-parts") p 0) in Hnone;
      [contradiction | lia].
Qed.

(** ** Edge cases of a call *)

(** X2.  A request with a batch method and a grouping tag whose path is
    missing makes the middleware throw a TypeError ([options.path.indexOf]
    on [undefined]): the next handler is not called and nothing is
    registered, scheduled or sent. *)
Theorem tagged_request_without_path_throws :
  forall (D R : Type) (options : Options) (next : Handler D R) (w : World D),
    includes batchMethods (method options) = true ->
    truthyValue (batchAs options) = true ->
    path options = None ->
    batchRequestMiddleware options next w = (Throw TypeError, w).
Proof.
  intros D R options next w Hm Ht Hp.
  apply middleware_throw. unfold bypasses. now rewrite Hm, Ht, Hp.
Qed.

Lemma tagged_request_without_path_throws_witness :
  (includes batchMethods (method pathlessRequest) = true
   /\ truthyValue (batchAs pathlessRequest) = true
   /\ path pathlessRequest = None)
  /\ batchRequestMiddleware pathlessRequest sampleNext (freshWorld []) =
     (Throw TypeError, freshWorld []).
Proof.
  assert (includes batchMethods (method pathlessRequest) = true) as Hm
    by reflexivity.
  assert (truthyValue (batchAs pathlessRequest) = true) as Ht by reflexivity.
  assert (path pathlessRequest = None) as Hp by reflexivity.
  split; [auto |].
  exact (tagged_request_without_path_throws
           _ _ pathlessRequest sampleNext (freshWorld []) Hm Ht Hp).
Defined.

Lemma batchIdOf_bracket (options : Options) :
  exists rest, batchIdOf options = 91 :: rest.
Proof. unfold batchIdOf. simpl. eauto. Qed.

(** X3.  On the batch id of a request, as the middleware computes it,
    [addRequestToBatch] does not throw: such an id begins with a bracket
    and is none of the names that the registry object inherits.  The index
    returned is the number of requests that were awaiting under the id, and
    it is the place of the new request in the batch afterwards; the
    requests that were there keep their places, the promise of the batch is
    kept, and the other batches, the timers and the transport are
    untouched. *)
Theorem addRequestToBatch_index :
  forall (D : Type) (keyed options : Options) (w : World D),
    let batchId := batchIdOf keyed in
    ~ In batchId objectPrototypeNames
    /\ exists b',
      fst (addRequestToBatch batchId options w) =
        Normal (length (pendingRequests w batchId))
      /\ awaitingBatches (snd (addRequestToBatch batchId options w)) !! batchId
         = Some b'
      /\ requests b' !! length (pendingRequests w batchId) = Some options
      /\ length (requests b') = S (length (pendingRequests w batchId))
      /\ (forall i other,
             pendingRequests w batchId !! i = Some other ->
             requests b' !! i = Some other)
      /\ promise b' = pendingPromise w batchId
      /\ (forall other,
             other <> batchId ->
             awaitingBatches (snd (addRequestToBatch batchId options w))
               !! other = awaitingBatches w !! other)
      /\ timers (snd (addRequestToBatch batchId options w)) = timers w
      /\ transport (snd (addRequestToBatch batchId options w)) = transport w
      /\ downstream (snd (addRequestToBatch batchId options w)) = downstream w.
Proof.
  intros D keyed options w batchId. split.
  - subst batchId. destruct (batchIdOf_bracket keyed) as [rest ->].
    unfold objectPrototypeNames. simpl.
    intros Hin. repeat (destruct Hin as [Hin | Hin]; [discriminate Hin |]).
    exact Hin.
  - rewrite addRequestToBatch_eq. simpl.
    eexists. split; [reflexivity |].
    split; [apply lookup_insert_eq |]. simpl.
    split; [apply list_lookup_middle; reflexivity |].
    split; [rewrite length_app; simpl; lia |].
    split; [intros i other Hi; now apply lookup_app_l_Some |].
    split; [reflexivity |].
    split; [intros other Hne; now apply lookup_insert_ne |].
    auto.
Qed.

Lemma commitEventually_promised {D : Type} batchId (w : World D) p rs :
  awaitingBatches w !! batchId = Some (mkBatch (Some p) rs) ->
  commitEventually batchId w = (Normal p, w).
Proof.
  intros Hb. unfold commitEventually, bind, readBatch. now rewrite Hb.
Qed.

Lemma commitEventually_fresh {D : Type} batchId (w : World D) rs :
  awaitingBatches w !! batchId = Some (mkBatch None rs) ->
  commitEventually batchId w =
  (Normal (PTimer (length (timers w))),
   mkWorld (<[batchId := mkBatch (Some (PTimer (length (timers w)))) rs]>
              (awaitingBatches w))
           (timers w ++ [Scheduled BATCH_TIME_WINDOW batchId])
           (transport w) (downstream w)).
Proof.
  intros Hb. unfold commitEventually, bind, readBatch. now rewrite Hb.
Qed.

(** X4.  [commitEventually] on an awaiting batch returns a promise and,
    called again at once, returns the same promise and changes nothing: a
    batch gets at most one timer.  Neither call touches the requests of the
    batch or the transport, and at most one timer is started. *)
Theorem commitEventually_reuses_promise :
  forall (D : Type) (batchId : jsstring) (w : World D) (b : Batch),
    awaitingBatches w !! batchId = Some b ->
    exists p,
      fst (commitEventually batchId w) = Normal p
      /\ commitEventually batchId (snd (commitEventually batchId w)) =
         (Normal p, snd (commitEventually batchId w))
      /\ awaitingBatches (snd (commitEventually batchId w)) !! batchId =
         Some (mkBatch (Some p) (requests b))
      /\ transport (snd (commitEventually batchId w)) = transport w
      /\ (timers (snd (commitEventually batchId w)) = timers w
          \/ (promise b = None
              /\ p = PTimer (length (timers w))
              /\ timers (snd (commitEventually batchId w)) =
                 timers w ++ [Scheduled BATCH_TIME_WINDOW batchId])).
Proof.
  intros D batchId w b Hb. destruct b as [[p |] rs].
  - rewrite (commitEventually_promised _ _ _ _ Hb). simpl.
    exists p. split; [reflexivity |].
    split; [now rewrite (commitEventually_promised _ _ _ _ Hb) |]. auto.
  - rewrite (commitEventually_fresh _ _ _ Hb). simpl.
    exists (PTimer (length (timers w))). split; [reflexivity |].
    split.
    + apply commitEventually_promised with (rs := rs). simpl.
      apply lookup_insert_eq.
    + split; [apply lookup_insert_eq |]. split; [reflexivity |].
      right. auto.
Qed.

Lemma commitEventually_reuses_promise_witness :
  awaitingBatches (snd (sampleWindow 2)) !! batchIdOf (sampleRequest 0)
  = Some (mkBatch (Some (PTimer 0)) (sampleRequests 2))
  /\ exists p,
      fst (commitEventually (batchIdOf (sampleRequest 0))
             (snd (sampleWindow 2))) = Normal p
      /\ transport (snd (commitEventually (batchIdOf (sampleRequest 0))
                           (snd (sampleWindow 2))))
         = transport (snd (sampleWindow 2)).
Proof.
  assert (awaitingBatches (snd (sampleWindow 2))
            !! batchIdOf (sampleRequest 0)
          = Some (mkBatch (Some (PTimer 0)) (sampleRequests 2))) as Hb
    by (vm_compute; reflexivity).
  split; [exact Hb |].
  destruct (commitEventually_reuses_promise _ _ _ _ Hb)
    as (p & Hp & _ & _ & Htr & _).
  exists p. auto.
Defined.

(** X5.  The index a batched request is answered at is its own place: the
    call returns a promise with the number of requests that were awaiting
    before it, and either the batch now awaits with that promise and has
    the request at that index, or the batch was committed in this call,
    the promise is the one of the call of [apiFetch] made, and the list of
    requests sent has the projection of the request at that index, as its
    last element. *)
Theorem batched_request_index_is_its_place :
  forall (D R : Type) (options : Options) (next : Handler D R) (w : World D),
    batchable options ->
    let idx := length (pendingRequests w (batchIdOf options)) in
    let w' := snd (batchRequestMiddleware options next w) in
    exists p,
      fst (batchRequestMiddleware options next w) = Normal (Demux p idx)
      /\ ((exists b,
              awaitingBatches w' !! batchIdOf options = Some b
              /\ promise b = Some p
              /\ requests b !! idx = Some options
              /\ transport w' = transport w)
          \/ (awaitingBatches w' !! batchIdOf options = None
              /\ p = PFetch (length (transport w))
              /\ exists sent,
                  transport w' =
                    transport w ++ [mkFetch (batchCall sent) Pending]
                  /\ sent !! idx = Some (projectRequest options)
                  /\ length sent = S idx)).
Proof.
  intros D R options next w Hb idx w'. subst idx w'.
  destruct (Nat.leb_spec MAX_BATCH_SIZE
              (length (pendingRequests w (batchIdOf options)) + 1))
    as [Hfull | Hroom].
  - rewrite middleware_flush by assumption. simpl.
    eexists. split; [reflexivity |]. right.
    split; [apply lookup_delete_eq |]. split; [reflexivity |].
    eexists. split; [reflexivity |].
    rewrite map_app. simpl. split.
    + rewrite <- (length_map projectRequest).
      apply list_lookup_middle. reflexivity.
    + rewrite length_app, length_map. simpl. lia.
  - destruct (pendingPromise w (batchIdOf options)) as [p |] eqn:Hp.
    + rewrite (middleware_join _ _ _ p) by assumption. simpl.
      exists p. split; [reflexivity |]. left.
      eexists. split; [apply lookup_insert_eq |]. simpl.
      split; [reflexivity |].
      split; [apply list_lookup_middle; reflexivity | reflexivity].
    + rewrite middleware_first by assumption. simpl.
      eexists. split; [reflexivity |]. left.
      eexists. split; [apply lookup_insert_eq |]. simpl.
      split; [reflexivity |].
      split; [apply list_lookup_middle; reflexivity | reflexivity].
Qed.

Lemma batched_request_index_is_its_place_witness :
  batchable (sampleRequest 2)
  /\ exists p,
      fst (batchRequestMiddleware (sampleRequest 2) sampleNext
             (snd (sampleWindow 2)))
      = Normal (Demux p
                  (length (pendingRequests (snd (sampleWindow 2))
                                           (batchIdOf (sampleRequest 2))))).
Proof.
  assert (batchable (sampleRequest 2)) as Hb by reflexivity.
  split; [exact Hb |].
  destruct (batched_request_index_is_its_place
              _ _ (sampleRequest 2) sampleNext (snd (sampleWindow 2)) Hb)
    as (p & Hp & _).
  exists p. exact Hp.
Defined.

(** ** What holds in every state the module can reach *)

Section Reachable.

Context {D R : Type}.
Implicit Types (w : World D) (next : Handler D R) (options : Options).

Lemma healthy_fresh (d : D) : healthy (freshWorld d).
Proof.
  split; [| constructor]. intros batchId b Hb. simpl in Hb.
  now rewrite lookup_empty in Hb.
Qed.

Lemma healthy_pending w batchId :
  healthy w ->
  (length (pendingRequests w batchId) < MAX_BATCH_SIZE)%nat
  /\ allFor batchId (pendingRequests w batchId).
Proof.
  intros [Hreg _]. unfold pendingRequests.
  destruct (awaitingBatches w !! batchId) as [b |] eqn:Hb.
  - destruct (Hreg _ _ Hb) as (_ & Hlen & Hall & _). now split.
  - split; [unfold MAX_BATCH_SIZE; simpl; lia | constructor].
Qed.

Lemma call_healthy next options w :
  healthy w -> healthy (snd (batchRequestMiddleware options next w)).
Proof.
  intros Hw. destruct (bypasses options) as [[|] | e] eqn:Hb.
  - rewrite middleware_bypass by assumption. exact Hw.
  - destruct (healthy_pending w (batchIdOf options) Hw) as [Hlen Hall].
    assert (allFor (batchIdOf options)
                   (pendingRequests w (batchIdOf options) ++ [options]))
      as Hall'.
    { apply Forall_app. split; [assumption |].
      apply Forall_cons. split; [now split | constructor]. }
    destruct Hw as [Hreg Hsent].
    destruct (Nat.leb_spec MAX_BATCH_SIZE
                (length (pendingRequests w (batchIdOf options)) + 1))
      as [Hfull | Hroom].
    + rewrite middleware_flush by assumption. split; simpl.
      * intros batchId b Hlook.
        destruct (decide (batchId = batchIdOf options)) as [-> | Hne].
        -- now rewrite lookup_delete_eq in Hlook.
        -- rewrite lookup_delete_ne in Hlook by congruence.
           destruct (Hreg _ _ Hlook) as (H1 & H2 & H3 & t & H4 & H5).
           repeat (split; [assumption |]). eauto.
      * apply Forall_app. split; [assumption |].
        apply Forall_cons. split; [| constructor].
        exists (batchIdOf options),
               (pendingRequests w (batchIdOf options) ++ [options]).
        simpl. split; [reflexivity |].
        split; [now destruct (pendingRequests w (batchIdOf options)) |].
        split; [rewrite length_app; simpl; lia | assumption].
    + destruct (awaitingBatches w !! batchIdOf options) as [b0 |] eqn:Hb0.
      * destruct (Hreg _ _ Hb0) as (_ & _ & _ & t & Hp & Ht).
        assert (pendingPromise w (batchIdOf options) = Some (PTimer t))
          as Hprom by (unfold pendingPromise; now rewrite Hb0).
        rewrite (middleware_join _ _ _ (PTimer t)) by assumption.
        split; simpl; [| assumption].
        intros batchId b Hlook.
        destruct (decide (batchId = batchIdOf options)) as [-> | Hne].
        -- rewrite lookup_insert_eq in Hlook. injection Hlook as <-.
           split; [now destruct (pendingRequests w (batchIdOf options)) |].
           split; [simpl; rewrite length_app; simpl; lia |].
           split; [assumption |]. simpl. eauto.
        -- rewrite lookup_insert_ne in Hlook by congruence.
           destruct (Hreg _ _ Hlook) as (H1 & H2 & H3 & t' & H4 & H5).
           repeat (split; [assumption |]). eauto.
      * assert (pendingPromise w (batchIdOf options) = None) as Hprom
          by (unfold pendingPromise; now rewrite Hb0).
        assert (pendingRequests w (batchIdOf options) = []) as Hpend
          by (unfold pendingRequests; now rewrite Hb0).
        rewrite middleware_first by assumption. rewrite Hpend in *.
        split; simpl; [| assumption].
        intros batchId b Hlook.
        destruct (decide (batchId = batchIdOf options)) as [-> | Hne].
        -- rewrite lookup_insert_eq in Hlook. injection Hlook as <-.
           split; [discriminate |].
           split; [simpl; unfold MAX_BATCH_SIZE; lia |].
           split; [assumption |]. simpl.
           exists (length (timers w)). split; [reflexivity |].
           apply list_lookup_middle. reflexivity.
        -- rewrite lookup_insert_ne in Hlook by congruence.
           destruct (Hreg _ _ Hlook) as (H1 & H2 & H3 & t' & H4 & H5).
           repeat (split; [assumption |]). exists t'.
           split; [assumption |]. now apply lookup_app_l_Some.
  - rewrite (middleware_throw _ _ _ e) by assumption. exact Hw.
Qed.

Lemma expire_healthy t w : healthy w -> healthy (expire t w).
Proof.
  intros [Hreg Hsent]. unfold expire.
  destruct (timers w !! t) as [[delay key | | r] |] eqn:Ht;
    try (now split).
  destruct (awaitingBatches w !! key) as [u |] eqn:Hu.
  - rewrite (commit_present _ _ u Hu). split; simpl.
    + intros batchId b Hlook.
      destruct (decide (batchId = key)) as [-> | Hne].
      * now rewrite lookup_delete_eq in Hlook.
      * rewrite lookup_delete_ne in Hlook by congruence.
        destruct (Hreg _ _ Hlook) as (H1 & H2 & H3 & t' & H4 & H5).
        repeat (split; [assumption |]). exists t'.
        split; [assumption |]. simpl.
        rewrite list_lookup_insert_ne; [assumption |].
        intros ->. congruence.
    + apply Forall_app. split; [assumption |].
      apply Forall_cons. split; [| constructor].
      destruct (Hreg _ _ Hu) as (H1 & H2 & H3 & _).
      exists key, (requests u). simpl.
      split; [reflexivity |]. split; [assumption |].
      split; [lia | assumption].
  - rewrite (commit_absent _ _ Hu). split; simpl; [| assumption].
    intros batchId b Hlook.
    destruct (Hreg _ _ Hlook) as (H1 & H2 & H3 & t' & H4 & H5).
    repeat (split; [assumption |]). exists t'.
    split; [assumption |]. simpl.
    rewrite list_lookup_insert_ne; [assumption |].
    intros ->. congruence.
Qed.

Lemma settle_healthy k o w : healthy w -> healthy (settle k o w).
Proof.
  intros [Hreg Hsent]. unfold settle.
  destruct (transport w !! k) as [[arg [| |]] |] eqn:Hk; try (now split).
  split; simpl; [exact Hreg |].
  apply Forall_insert; [assumption |].
  rewrite Forall_forall in Hsent.
  apply (Hsent (mkFetch arg Pending)).
  apply list_elem_of_lookup. eauto.
Qed.

Lemma step_healthy next ev w : healthy w -> healthy (step next ev w).
Proof.
  destruct ev; simpl.
  - apply call_healthy.
  - apply expire_healthy.
  - apply settle_healthy.
  - apply settle_healthy.
Qed.

Lemma run_healthy next evs : forall w, healthy w -> healthy (run next evs w).
Proof.
  induction evs as [| ev evs IH]; intros w Hw; [assumption |].
  rewrite run_cons. apply IH. now apply step_healthy.
Qed.

End Reachable.

(** X6.  Whatever calls, timer expiries and answers of the transport a
    freshly loaded module has seen, a batch that awaits in the registry has
    at least one request and fewer than [MAX_BATCH_SIZE], all of them
    batched requests whose batch id is the key it is registered under, and
    it holds the promise of a timer that is still waiting for that key: no
    batch is left in the registry without a timer that will commit it. *)
Theorem awaiting_batch_has_timer_and_room :
  forall (D R : Type) (next : Handler D R) (d : D) (evs : list Event)
         (batchId : jsstring) (b : Batch),
    awaitingBatches (run next evs (freshWorld d)) !! batchId = Some b ->
    requests b <> []
    /\ (length (requests b) < MAX_BATCH_SIZE)%nat
    /\ allFor batchId (requests b)
    /\ exists t,
        promise b = Some (PTimer t)
        /\ timers (run next evs (freshWorld d)) !! t =
           Some (Scheduled BATCH_TIME_WINDOW batchId).
Proof.
  intros D R next d evs batchId b Hb.
  destruct (run_healthy next evs (freshWorld d) (healthy_fresh d))
    as [Hreg _].
  exact (Hreg _ _ Hb).
Qed.

Lemma awaiting_batch_has_timer_and_room_witness :
  awaitingBatches
    (run sampleNext [Call (sampleRequest 0); Call (sampleRequest 1)]
         (freshWorld []))
    !! batchIdOf (sampleRequest 0)
  = Some (mkBatch (Some (PTimer 0)) (sampleRequests 2))
  /\ (length (requests (mkBatch (Some (PTimer 0)) (sampleRequests 2)))
      < MAX_BATCH_SIZE)%nat.
Proof.
  assert (awaitingBatches
            (run sampleNext [Call (sampleRequest 0); Call (sampleRequest 1)]
                 (freshWorld []))
            !! batchIdOf (sampleRequest 0)
          = Some (mkBatch (Some (PTimer 0)) (sampleRequests 2))) as Hb
    by (vm_compute; reflexivity).
  split; [exact Hb |].
  exact (proj1 (proj2 (awaiting_batch_has_timer_and_room
                         _ _ sampleNext [] _ _ _ Hb))).
Defined.



(** ** A window with other traffic in between *)

Section Woven.

Context {D R : Type}.
Implicit Types (w : World D) (next : Handler D R) (options : Options).
Implicit Types (rs : list Options) (batchId : jsstring).

Lemma foreignRun_keeps_window next batchId t rs evs :
  forall w,
    windowOpen batchId t rs w ->
    foreignRun next batchId evs w ->
    windowOpen batchId t rs (run next evs w).
Proof.
  induction evs as [| ev evs IH]; intros w Hopen Hforeign; [assumption |].
  destruct Hforeign as [Hev Hrest]. rewrite run_cons.
  apply IH; [| assumption]. now apply foreign_step_keeps_window.
Qed.

Lemma submitWoven_join next batchId t parts :
  forall w rs,
    windowOpen batchId t rs w ->
    allFor batchId (map fst parts) ->
    (length rs + length parts < MAX_BATCH_SIZE)%nat ->
    wovenForeign next batchId parts w ->
    fst (submitWoven next parts w) =
      map (fun i => Normal (Demux (PTimer t) i))
          (seq (length rs) (length parts))
    /\ windowOpen batchId t (rs ++ map fst parts)
                  (snd (submitWoven next parts w)).
Proof.
  induction parts as [| [o others] parts IH];
    intros w rs Hopen Hall Hlen Hwoven.
  - simpl. rewrite app_nil_r. now split.
  - simpl in Hall, Hlen, Hwoven.
    apply Forall_cons in Hall as [[Hb Hid] Hall].
    destruct Hwoven as [Hothers Hwoven].
    destruct (window_join next batchId t rs w o Hopen Hb Hid)
      as (Hc & Hopen1 & _); [lia |].
    simpl submitWoven.
    destruct (batchRequestMiddleware o next w) as [c w1]. simpl in *.
    subst c.
    pose proof (foreignRun_keeps_window next batchId t _ others w1
                  Hopen1 Hothers) as Hopen2.
    destruct (IH (run next others w1) (rs ++ [o]) Hopen2 Hall) as [Hhs Hfin].
    + rewrite length_app. simpl. lia.
    + assumption.
    + destruct (submitWoven next parts (run next others w1)) as [cs w2].
      simpl in *. subst cs. split.
      * rewrite length_app, Nat.add_1_r. reflexivity.
      * now rewrite <- app_assoc in Hfin.
Qed.

End Woven.

(** X8.  The requests of one window may be interleaved with other events:
    calls that are passed on or batched under other ids, expiries of timers
    of other batches, answers of the transport.  Take fewer than
    [MAX_BATCH_SIZE] batched requests with one batch id, the first one
    handed in when nothing awaits under that id.  Each caller still
    receives the promise of the window's timer with its own index; when
    that timer expires one call of [apiFetch] is made, with exactly these
    requests in the order in which they were handed in; and from then on
    the promise of the i-th caller follows that call, fulfilled with the
    element at index i or rejected with the reason of the transport. *)
Theorem woven_window_single_request :
  forall (D R : Type) (next : Handler D R) (w0 : World D)
         (batchId : jsstring) (parts : list (Options * list Event)),
    awaitingBatches w0 !! batchId = None ->
    parts <> [] ->
    (length parts < MAX_BATCH_SIZE)%nat ->
    allFor batchId (map fst parts) ->
    wovenForeign next batchId parts w0 ->
    let t := length (timers w0) in
    let hs := fst (submitWoven next parts w0) in
    let w1 := snd (submitWoven next parts w0) in
    hs = map (fun i => Normal (Demux (PTimer t) i)) (seq 0 (length parts))
    /\ transport (expire t w1) =
       transport w1
         ++ [mkFetch (batchCall (map projectRequest (map fst parts))) Pending]
    /\ awaitingBatches (expire t w1) !! batchId = None
    /\ forall (evs : list Event) i c,
        hs !! i = Some c ->
        callerState (run next evs (expire t w1)) c =
        Some
          match fetchState (run next evs (expire t w1))
                           (length (transport w1)) with
          | Pending => Pending
          | Fulfilled subResponses =>
              Fulfilled (nth i subResponses VUndefined)
          | Rejected reason => Rejected reason
          end.
Proof.
  intros D R next w0 batchId parts Hnone Hne Hlen Hall Hwoven t hs w1.
  destruct parts as [| [o others] parts]; [contradiction |].
  simpl in Hall, Hlen, Hwoven.
  apply Forall_cons in Hall as [[Hb Hid] Hall].
  destruct Hwoven as [Hothers Hwoven].
  assert (pendingRequests w0 (batchIdOf o) = []) as Hpend
    by (unfold pendingRequests; now rewrite Hid, Hnone).
  assert (pendingPromise w0 (batchIdOf o) = None) as Hprom
    by (unfold pendingPromise; now rewrite Hid, Hnone).
  assert (batchRequestMiddleware o next w0 =
          (Normal (Demux (PTimer t) 0),
           mkWorld (<[batchId := mkBatch (Some (PTimer t)) [o]]>
                      (awaitingBatches w0))
                   (timers w0 ++ [Scheduled BATCH_TIME_WINDOW batchId])
                   (transport w0) (downstream w0))) as Hfirst.
  { rewrite middleware_first; try assumption.
    - now rewrite Hpend, Hid.
    - rewrite Hpend. simpl. unfold MAX_BATCH_SIZE. lia. }
  assert (windowOpen batchId t [o]
            (snd (batchRequestMiddleware o next w0))) as Hopen.
  { rewrite Hfirst. split; simpl.
    - apply lookup_insert_eq.
    - apply list_lookup_middle. reflexivity. }
  pose proof (foreignRun_keeps_window next batchId t _ others _
                Hopen Hothers) as Hopen1.
  destruct (submitWoven_join next batchId t parts _ [o] Hopen1 Hall)
    as [Hhs Hfin]; [simpl; lia | assumption |].
  assert (hs = map (fun i => Normal (Demux (PTimer t) i))
                   (seq 0 (length ((o, others) :: parts)))
          /\ windowOpen batchId t (map fst ((o, others) :: parts)) w1)
    as [Hhs' Hopen'].
  { subst hs w1. simpl submitWoven. rewrite Hfirst in *. simpl in *.
    destruct (submitWoven next parts
                (run next others
                   (mkWorld (<[batchId := mkBatch (Some (PTimer t)) [o]]>
                               (awaitingBatches w0))
                            (timers w0 ++ [Scheduled BATCH_TIME_WINDOW batchId])
                            (transport w0) (downstream w0))))
      as [cs w2].
    simpl in *. subst cs. now split. }
  destruct (window_expiry batchId t _ w1 Hopen') as (Hsent & Hran & Hgone).
  split; [exact Hhs' |]. split; [exact Hsent |]. split; [exact Hgone |].
  intros evs i c Hc. rewrite Hhs' in Hc.
  rewrite list_lookup_fmap in Hc.
  destruct (seq 0 (length ((o, others) :: parts)) !! i) as [j |] eqn:Hj;
    [| discriminate].
  apply lookup_seq in Hj as [-> _]. simpl in Hc. injection Hc as <-.
  unfold callerState, demuxState, promiseState.
  now rewrite (run_timer_ran next evs _ _ _ Hran).
Qed.

Lemma woven_window_single_request_witness :
  (awaitingBatches (freshWorld (@nil Options))
     !! batchIdOf (sampleRequest 0) = None
   /\ sampleWoven <> []
   /\ (length sampleWoven < MAX_BATCH_SIZE)%nat
   /\ allFor (batchIdOf (sampleRequest 0)) (map fst sampleWoven)
   /\ wovenForeign sampleNext (batchIdOf (sampleRequest 0)) sampleWoven
                   (freshWorld []))
  /\ fst (submitWoven sampleNext sampleWoven (freshWorld [])) =
     [Normal (Demux (PTimer 0) 0); Normal (Demux (PTimer 0) 1)].
Proof.
  assert (awaitingBatches (freshWorld (@nil Options))
            !! batchIdOf (sampleRequest 0) = None) as Hnone by reflexivity.
  assert (sampleWoven <> []) as Hne by discriminate.
  assert (length sampleWoven < MAX_BATCH_SIZE)%nat as Hlen
    by (vm_compute; lia).
  assert (allFor (batchIdOf (sampleRequest 0)) (map fst sampleWoven)) as Hall
    by (repeat constructor).
  assert (wovenForeign sampleNext (batchIdOf (sampleRequest 0)) sampleWoven
                       (freshWorld [])) as Hwoven.
  { unfold sampleWoven, wovenForeign, foreignRun, foreign.
    repeat match goal with
           | |- _ /\ _ => split
           | |- True => exact I
           | |- batchable _ -> _ => intros _; vm_compute; discriminate
           end. }
  split; [auto 10 |].
  exact (proj1 (woven_window_single_request
                  _ _ sampleNext (freshWorld []) _ sampleWoven
                  Hnone Hne Hlen Hall Hwoven)).
Defined.

(** ** A window that fills up *)

(** X9.  When as many batched requests as [MAX_BATCH_SIZE] reach the
    middleware for one batch id, with nothing awaiting and no timer waiting
    for the id before, the last call commits the batch and returns the
    promise of the call of [apiFetch], which carries all the requests; the
    earlier callers hold the promise of the window's timer, and that timer
    is still scheduled.  When it then expires with nothing awaiting, its
    callback throws, no call is made, and the promises of the earlier
    callers stay pending whatever happens afterwards. *)
Theorem full_window_strands_earlier_callers :
  forall (D R : Type) (next : Handler D R) (w0 : World D)
         (batchId : jsstring) (rs : list Options) (options : Options),
    quiet batchId w0 = true ->
    (length rs + 1 = MAX_BATCH_SIZE)%nat ->
    allFor batchId (rs ++ [options]) ->
    let t := length (timers w0) in
    let k := length (transport w0) in
    let hs := fst (submitAll next (rs ++ [options]) w0) in
    let w1 := snd (submitAll next (rs ++ [options]) w0) in
    hs = map (fun i => Normal (Demux (PTimer t) i)) (seq 0 (length rs))
           ++ [Normal (Demux (PFetch k) (length rs))]
    /\ transport w1 =
       transport w0
         ++ [mkFetch (batchCall (map projectRequest (rs ++ [options])))
                     Pending]
    /\ timers w1 !! t = Some (Scheduled BATCH_TIME_WINDOW batchId)
    /\ commit batchId w1 = (Throw TypeError, w1)
    /\ transport (expire t w1) = transport w1
    /\ forall (evs : list Event) i,
        (i < length rs)%nat ->
        exists c,
          hs !! i = Some c
          /\ callerState (run next evs (expire t w1)) c = Some Pending.
Proof.
  intros D R next w0 batchId rs options Hquiet Hlen Hall t k hs w1.
  destruct (full_window_leaves_timer next w0 batchId rs options
              Hquiet Hlen Hall)
    as (Hgone & Htimers & Hsent & Hthrow & Hran & Hsame).
  fold w1 in Hgone, Htimers, Hsent, Hthrow, Hran, Hsame. fold t in Hran, Hsame.
  apply quiet_spec in Hquiet as [Hnone _].
  apply Forall_app in Hall as [Hall Hlast].
  apply Forall_cons in Hlast as [[Hb Hid] _].
  assert (rs <> []) as Hne
    by (intros ->; unfold MAX_BATCH_SIZE in Hlen; simpl in Hlen; lia).
  assert (hs = map (fun i => Normal (Demux (PTimer t) i)) (seq 0 (length rs))
                 ++ [Normal (Demux (PFetch k) (length rs))]) as Hhs.
  { subst hs. rewrite submitAll_app.
    rewrite (submitAll_window next batchId) by (auto; lia).
    simpl fst. simpl snd. simpl submitAll.
    rewrite middleware_flush.
    - rewrite Hid. unfold pendingRequests. simpl.
      rewrite lookup_insert_eq. reflexivity.
    - assumption.
    - rewrite Hid. unfold pendingRequests. simpl.
      rewrite lookup_insert_eq. simpl. lia. }
  split; [exact Hhs |]. split; [exact Hsent |].
  split; [rewrite Htimers; apply list_lookup_middle; reflexivity |].
  split; [exact Hthrow |]. split; [exact Hsame |].
  intros evs i Hi. exists (Normal (Demux (PTimer t) i)). split.
  - rewrite Hhs. rewrite lookup_app_l by (rewrite length_map, length_seq; lia).
    rewrite list_lookup_fmap, lookup_seq_lt by assumption. reflexivity.
  - unfold callerState, demuxState, promiseState.
    rewrite (run_timer_ran next evs (expire t w1) t None).
    + reflexivity.
    + rewrite Hran. apply list_lookup_middle. reflexivity.
Qed.

Lemma full_window_strands_earlier_callers_witness :
  (quiet (batchIdOf (sampleRequest 0)) (freshWorld (@nil Options)) = true
   /\ (length (sampleRequests 19) + 1 = MAX_BATCH_SIZE)%nat
   /\ allFor (batchIdOf (sampleRequest 0))
             (sampleRequests 19 ++ [sampleRequest 19]))
  /\ transport
       (expire 0 (snd (submitAll sampleNext
                         (sampleRequests 19 ++ [sampleRequest 19])
                         (freshWorld []))))
     = transport
         (snd (submitAll sampleNext (sampleRequests 19 ++ [sampleRequest 19])
                 (freshWorld []))).
Proof.
  assert (quiet (batchIdOf (sampleRequest 0)) (freshWorld (@nil Options))
          = true) as Hq by reflexivity.
  assert (length (sampleRequests 19) + 1 = MAX_BATCH_SIZE)%nat as Hlen
    by (vm_compute; reflexivity).
  assert (allFor (batchIdOf (sampleRequest 0))
                 (sampleRequests 19 ++ [sampleRequest 19])) as Hall
    by (repeat constructor).
  split; [auto |].
  exact (proj1 (proj2 (proj2 (proj2 (proj2
           (full_window_strands_earlier_callers
              _ _ sampleNext (freshWorld []) _ _ _ Hq Hlen Hall)))))).
Defined.

(** X10.  The timer that a full window leaves behind commits whatever
    awaits under the batch id when it expires.  After a window of
    [MAX_BATCH_SIZE] requests, a further batched request for the same id
    opens a new batch with a timer of its own; when the timer of the old
    window expires first, it is this new batch that is sent, alone, and the
    promise of the old window is resolved with the promise of that call:
    once the transport answers it, the callers left waiting by the old
    window are fulfilled from the responses to the new batch, each at its
    old index.  The caller of the new request holds the promise of the new
    timer, which finds nothing to commit when it expires, and stays
    pending. *)
Theorem leftover_timer_commits_next_batch :
  forall (D R : Type) (next : Handler D R) (w0 : World D)
         (batchId : jsstring) (rs : list Options) (options later : Options),
    quiet batchId w0 = true ->
    (length rs + 1 = MAX_BATCH_SIZE)%nat ->
    allFor batchId (rs ++ [options; later]) ->
    let t := length (timers w0) in
    let k := length (transport w0) in
    let w1 := snd (submitAll next (rs ++ [options]) w0) in
    let w2 := snd (batchRequestMiddleware later next w1) in
    let w3 := expire t w2 in
    fst (batchRequestMiddleware later next w1) =
      Normal (Demux (PTimer (t + 1)) 0)
    /\ transport w3 =
       transport w1 ++ [mkFetch (batchCall [projectRequest later]) Pending]
    /\ (forall (evs : list Event) (subResponses : list JSVal) i,
           fetchState (run next evs w3) (k + 1) = Fulfilled subResponses ->
           callerState (run next evs w3)
                       (Normal (Demux (R := R) (PTimer t) i))
           = Some (Fulfilled (nth i subResponses VUndefined)))
    /\ (forall evs : list Event,
           callerState (run next evs (expire (t + 1) w3))
                       (Normal (Demux (R := R) (PTimer (t + 1)) 0))
           = Some Pending).
Proof.
  intros D R next w0 batchId rs options later Hquiet Hlen Hall t k w1 w2 w3.
  replace (rs ++ [options; later]) with ((rs ++ [options]) ++ [later]) in Hall
    by (now rewrite <- app_assoc).
  apply Forall_app in Hall as [Hall Hlater].
  apply Forall_cons in Hlater as [[Hb Hid] _].
  destruct (full_window_leaves_timer next w0 batchId rs options
              Hquiet Hlen Hall)
    as (Hgone & Htimers & Hsent & _).
  fold w1 in Hgone, Htimers, Hsent.
  assert (length (timers w1) = (t + 1)%nat) as Hlt
    by (rewrite Htimers, length_app; reflexivity).
  assert (length (transport w1) = (k + 1)%nat) as Hlk
    by (rewrite Hsent, length_app; reflexivity).
  assert (batchRequestMiddleware later next w1 =
          (Normal (Demux (PTimer (t + 1)) 0),
           mkWorld (<[batchId := mkBatch (Some (PTimer (t + 1))) [later]]>
                      (awaitingBatches w1))
                   (timers w1 ++ [Scheduled BATCH_TIME_WINDOW batchId])
                   (transport w1) (downstream w1))) as Hcall.
  { assert (pendingRequests w1 (batchIdOf later) = []) as Hpend
      by (unfold pendingRequests; now rewrite Hid, Hgone).
    rewrite middleware_first; try assumption.
    - now rewrite Hpend, Hid, Hlt.
    - rewrite Hpend. simpl. unfold MAX_BATCH_SIZE. lia.
    - unfold pendingPromise. now rewrite Hid, Hgone. }
  assert (timers w2 !! t = Some (Scheduled BATCH_TIME_WINDOW batchId)) as Ht.
  { subst w2. rewrite Hcall. simpl. rewrite Htimers.
    apply lookup_app_l_Some. apply list_lookup_middle. reflexivity. }
  assert (w3 =
          mkWorld (delete batchId (awaitingBatches w1))
                  (<[t := Ran (Some (k + 1)%nat)]>
                     (timers w1 ++ [Scheduled BATCH_TIME_WINDOW batchId]))
                  (transport w1
                     ++ [mkFetch (batchCall [projectRequest later]) Pending])
                  (downstream w1)) as Hw3.
  { subst w3.
    rewrite (expire_present _ _ _ _ (mkBatch (Some (PTimer (t + 1))) [later])
               Ht).
    - subst w2. rewrite Hcall. simpl.
      now rewrite delete_insert_eq, Hlk.
    - subst w2. rewrite Hcall. simpl. apply lookup_insert_eq. }
  assert (t < length (timers w1 ++ [Scheduled BATCH_TIME_WINDOW batchId]))%nat
    as Hbound by (rewrite length_app, Hlt; simpl; lia).
  split; [now rewrite Hcall |].
  split; [now rewrite Hw3 |].
  split.
  - intros evs subResponses i Hk.
    unfold callerState, demuxState, promiseState.
    rewrite (run_timer_ran next evs w3 t (Some (k + 1)%nat)).
    + now rewrite Hk.
    + rewrite Hw3. simpl. now apply list_lookup_insert_eq.
  - intros evs.
    assert (timers (expire (t + 1) w3) !! (t + 1)%nat = Some (Ran None))
      as Hran.
    { rewrite (expire_absent _ _ BATCH_TIME_WINDOW batchId).
      - simpl. apply list_lookup_insert_eq.
        rewrite Hw3. simpl. rewrite length_insert, length_app, Hlt. simpl. lia.
      - rewrite Hw3. simpl.
        rewrite list_lookup_insert_ne by lia.
        rewrite <- Hlt. apply list_lookup_middle. reflexivity.
      - rewrite Hw3. simpl. apply lookup_delete_eq. }
    unfold callerState, demuxState, promiseState.
    now rewrite (run_timer_ran next evs _ _ _ Hran).
Qed.

Lemma leftover_timer_commits_next_batch_witness :
  (quiet (batchIdOf (sampleRequest 0)) (freshWorld (@nil Options)) = true
   /\ (length (sampleRequests 19) + 1 = MAX_BATCH_SIZE)%nat
   /\ allFor (batchIdOf (sampleRequest 0))
             (sampleRequests 19 ++ [sampleRequest 19; sampleRequest 20]))
  /\ fst (batchRequestMiddleware (sampleRequest 20) sampleNext
            (snd (submitAll sampleNext
                    (sampleRequests 19 ++ [sampleRequest 19])
                    (freshWorld []))))
     = Normal (Demux (PTimer (0 + 1)) 0).
Proof.
  assert (quiet (batchIdOf (sampleRequest 0)) (freshWorld (@nil Options))
          = true) as Hq by reflexivity.
  assert (length (sampleRequests 19) + 1 = MAX_BATCH_SIZE)%nat as Hlen
    by (vm_compute; reflexivity).
  assert (allFor (batchIdOf (sampleRequest 0))
                 (sampleRequests 19 ++ [sampleRequest 19; sampleRequest 20]))
    as Hall by (repeat constructor).
  split; [auto |].
  exact (proj1 (leftover_timer_commits_next_batch
                  _ _ sampleNext (freshWorld []) _ _ _ _ Hq Hlen Hall)).
Defined.

(** * The Dashicon component *)

(** X11.  The class of the icon is [dashicon dashicons dashicons-] followed
    by the icon's name, and then a space and [className] when [className] is
    a non-empty string; a missing or empty [className] adds nothing, not
    even the space, and a missing [icon] gives the class
    [dashicons-undefined]. *)
Theorem iconClass_closed_form :
  forall (name : jsstring) (c : N) (cs : jsstring),
    Dashicon.iconClass (Some name) None =
      js "dashicon dashicons dashicons-" ++ name
    /\ Dashicon.iconClass (Some name) (Some []) =
       js "dashicon dashicons dashicons-" ++ name
    /\ Dashicon.iconClass (Some name) (Some (c :: cs)) =
       js "dashicon dashicons dashicons-" ++ name ++ js " " ++ c :: cs
    /\ Dashicon.iconClass None None = js "dashicon dashicons dashicons-undefined"
    /\ Dashicon.iconClass None (Some []) =
       js "dashicon dashicons dashicons-undefined"
    /\ Dashicon.iconClass None (Some (c :: cs)) =
       js "dashicon dashicons dashicons-undefined" ++ js " " ++ c :: cs.
Proof.
  intros name c cs. unfold Dashicon.iconClass.
  change (js "dashicons-" ++ Dashicon.concatString (Some name))
    with (100 :: (js "ashicons-" ++ name)).
  repeat split; simpl; rewrite ?app_nil_r; reflexivity.
Qed.

(** * The key handler of the URL input *)

Section UrlInputKeys.

Import UrlInput.

Implicit Types (keys : KeyCodes) (st : State) (event : KeyEvent).
Implicit Types (value : jsstring).

Lemma active_guard st value :
  listActive st ->
  (negb (showSuggestions st)
   || (lengthZ (suggestions st) =? 0)%Z
   || loading st)
  && truthy (Some value) = false.
Proof.
  intros (Hshow & Hne & Hload). rewrite Hshow, Hload. simpl.
  destruct (suggestions st) as [| s l]; [contradiction |].
  unfold lengthZ. simpl length.
  destruct (Z.eqb_spec (Z.of_nat (S (length l))) 0); [lia | reflexivity].
Qed.


End UrlInputKeys.

(** X12.  While the list of suggestions is on screen and ready, with
    nothing selected or a suggestion of the list selected, the up and the
    down arrow keep the event to the input and select a suggestion of the
    list: the selection never leaves the list. *)
Theorem arrows_keep_selection_in_range :
  forall (keys : UrlInput.KeyCodes) (value : jsstring) (st : UrlInput.State)
         (event : UrlInput.KeyEvent),
    UrlInput.listActive st ->
    UrlInput.selectionInRange st ->
    UrlInput.keyCode event = UrlInput.UP keys
    \/ UrlInput.keyCode event = UrlInput.DOWN keys ->
    exists j,
      UrlInput.onKeyDownHandler keys value st event =
        (Normal tt,
         [UrlInput.StopPropagation; UrlInput.PreventDefault;
          UrlInput.SetSelectedSuggestion (Some j)])
      /\ (0 <= j < UrlInput.lengthZ (UrlInput.suggestions st))%Z.
Proof.
  intros keys value st event Hactive Hrange Hkey.
  unfold UrlInput.onKeyDownHandler. rewrite (active_guard _ value Hactive).
  assert (0 < UrlInput.lengthZ (UrlInput.suggestions st))%Z as Hpos.
  { destruct Hactive as (_ & Hne & _). unfold UrlInput.lengthZ.
    destruct (UrlInput.suggestions st); [contradiction | simpl; lia]. }
  unfold UrlInput.selectionInRange in Hrange.
  destruct (Z.eqb_spec (UrlInput.keyCode event) (UrlInput.UP keys))
    as [Hup | Hnup].
  - eexists. split; [reflexivity |].
    destruct (UrlInput.selectedSuggestion st) as [z |]; simpl; [| lia].
    destruct (Z.eqb_spec z 0); lia.
  - destruct Hkey as [Hkey | Hkey]; [contradiction |].
    rewrite Hkey, Z.eqb_refl.
    eexists. split; [reflexivity |].
    destruct (UrlInput.selectedSuggestion st) as [z |]; [| lia].
    destruct (Z.eqb_spec z (UrlInput.lengthZ (UrlInput.suggestions st) - 1));
      lia.
Qed.

Lemma arrows_keep_selection_in_range_witness :
  (UrlInput.listActive UrlInput.sampleState
   /\ UrlInput.selectionInRange UrlInput.sampleState
   /\ (UrlInput.keyCode (UrlInput.mkKeyEvent 40 0)
         = UrlInput.UP UrlInput.keyboard
       \/ UrlInput.keyCode (UrlInput.mkKeyEvent 40 0)
          = UrlInput.DOWN UrlInput.keyboard))
  /\ exists j,
      UrlInput.onKeyDownHandler UrlInput.keyboard (js "wp")
        UrlInput.sampleState (UrlInput.mkKeyEvent 40 0) =
        (Normal tt,
         [UrlInput.StopPropagation; UrlInput.PreventDefault;
          UrlInput.SetSelectedSuggestion (Some j)])
      /\ (0 <= j < UrlInput.lengthZ
                     (UrlInput.suggestions UrlInput.sampleState))%Z.
Proof.
  assert (UrlInput.listActive UrlInput.sampleState) as Ha
    by (repeat split; discriminate).
  assert (UrlInput.selectionInRange UrlInput.sampleState) as Hr
    by (unfold UrlInput.selectionInRange, UrlInput.lengthZ; simpl; lia).
  assert (UrlInput.keyCode (UrlInput.mkKeyEvent 40 0)
            = UrlInput.UP UrlInput.keyboard
          \/ UrlInput.keyCode (UrlInput.mkKeyEvent 40 0)
             = UrlInput.DOWN UrlInput.keyboard) as Hk
    by (right; reflexivity).
  split; [auto |].
  exact (arrows_keep_selection_in_range
           UrlInput.keyboard (js "wp") _ _ Ha Hr Hk).
Defined.

Section UrlInputMoves.

Import UrlInput.

Implicit Types (keys : KeyCodes) (st : State) (value : jsstring).

Lemma press_up_active keys value caret st :
  listActive st ->
  press keys value (UP keys) caret st =
  mkState (suggestions st) (showSuggestions st)
          (Some (if noSelection (selectedSuggestion st)
                 then (lengthZ (suggestions st) - 1)%Z
                 else match selectedSuggestion st with
                      | Some z => (z - 1)%Z
                      | None => (-1)%Z
                      end))
          (loading st).
Proof.
  intros Hactive. unfold press, onKeyDownHandler.
  rewrite (active_guard _ value Hactive). simpl keyCode.
  now rewrite Z.eqb_refl.
Qed.

Lemma press_down_active keys value caret st :
  listActive st ->
  UP keys <> DOWN keys ->
  press keys value (DOWN keys) caret st =
  mkState (suggestions st) (showSuggestions st)
          (Some match selectedSuggestion st with
                | None => 0%Z
                | Some z =>
                    if (z =? lengthZ (suggestions st) - 1)%Z
                    then 0%Z else (z + 1)%Z
                end)
          (loading st).
Proof.
  intros Hactive Hne. unfold press, onKeyDownHandler.
  rewrite (active_guard _ value Hactive). simpl keyCode.
  destruct (Z.eqb_spec (DOWN keys) (UP keys)); [congruence |].
  now rewrite Z.eqb_refl.
Qed.

(** A selection outside the list makes [selectLink] read [url] of
    [undefined]. *)
Lemma suggestionAt_outside (l : list JSVal) (z : Z) :
  (z < 0 \/ lengthZ l <= z)%Z ->
  suggestionAt l (Some z) = VUndefined.
Proof.
  intros Hout. unfold suggestionAt.
  destruct (Z.ltb_spec z 0); [reflexivity |].
  apply nth_overflow. unfold lengthZ in Hout. lia.
Qed.

Lemma unguarded st value :
  listActive st \/ value = [] ->
  (negb (showSuggestions st)
   || (lengthZ (suggestions st) =? 0)%Z
   || loading st)
  && truthy (Some value) = false.
Proof.
  intros [Hactive | ->]; [now apply active_guard | apply andb_false_r].
Qed.

End UrlInputMoves.

(** X13.  While the list is on screen and ready and one of its suggestions
    is selected, the down arrow followed by the up arrow leads back to the
    same state, and so does the up arrow followed by the down arrow; the
    selection wraps around, from the last suggestion down to the first and
    from the first up to the last. *)
Theorem down_and_up_are_inverse :
  forall (keys : UrlInput.KeyCodes) (value : jsstring) (st : UrlInput.State)
         (i caret caret' : Z),
    UrlInput.listActive st ->
    UrlInput.selectedSuggestion st = Some i ->
    (0 <= i < UrlInput.lengthZ (UrlInput.suggestions st))%Z ->
    UrlInput.UP keys <> UrlInput.DOWN keys ->
    UrlInput.press keys value (UrlInput.UP keys) caret'
      (UrlInput.press keys value (UrlInput.DOWN keys) caret st) = st
    /\ UrlInput.press keys value (UrlInput.DOWN keys) caret'
         (UrlInput.press keys value (UrlInput.UP keys) caret st) = st
    /\ (i = (UrlInput.lengthZ (UrlInput.suggestions st) - 1)%Z ->
        UrlInput.selectedSuggestion
          (UrlInput.press keys value (UrlInput.DOWN keys) caret st) = Some 0%Z)
    /\ (i = 0%Z ->
        UrlInput.selectedSuggestion
          (UrlInput.press keys value (UrlInput.UP keys) caret st)
        = Some (UrlInput.lengthZ (UrlInput.suggestions st) - 1)%Z).
Proof.
  intros keys value st i caret caret' Hactive Hsel Hrange Hne.
  assert (forall z,
             UrlInput.listActive
               (UrlInput.mkState (UrlInput.suggestions st)
                                 (UrlInput.showSuggestions st) z
                                 (UrlInput.loading st))) as Hstill
    by (intros z; exact Hactive).
  rewrite !press_down_active, !press_up_active; try assumption;
    try (rewrite ?press_down_active, ?press_up_active by assumption;
         apply Hstill).
  rewrite Hsel. simpl.
  destruct st as [sugg show sel load]. simpl in *. subst sel.
  split; [| split; [| split]].
  - f_equal. f_equal.
    destruct (Z.eqb_spec i (UrlInput.lengthZ sugg - 1)).
    + simpl. lia.
    + destruct (Z.eqb_spec (i + 1) 0); lia.
  - f_equal. f_equal.
    destruct (Z.eqb_spec i 0).
    + rewrite Z.eqb_refl. lia.
    + destruct (Z.eqb_spec (i - 1) (UrlInput.lengthZ sugg - 1)); lia.
  - intros ->. now rewrite Z.eqb_refl.
  - intros ->. reflexivity.
Qed.

Lemma down_and_up_are_inverse_witness :
  (UrlInput.listActive UrlInput.sampleState
   /\ UrlInput.selectedSuggestion UrlInput.sampleState = Some 1%Z
   /\ (0 <= 1 < UrlInput.lengthZ (UrlInput.suggestions UrlInput.sampleState))%Z
   /\ UrlInput.UP UrlInput.keyboard <> UrlInput.DOWN UrlInput.keyboard)
  /\ UrlInput.press UrlInput.keyboard (js "wp") 38 0
       (UrlInput.press UrlInput.keyboard (js "wp") 40 0 UrlInput.sampleState)
     = UrlInput.sampleState.
Proof.
  assert (UrlInput.listActive UrlInput.sampleState) as Ha
    by (repeat split; discriminate).
  assert (UrlInput.selectedSuggestion UrlInput.sampleState = Some 1%Z) as Hs
    by reflexivity.
  assert (0 <= 1 < UrlInput.lengthZ
                     (UrlInput.suggestions UrlInput.sampleState))%Z as Hr
    by (unfold UrlInput.lengthZ; simpl; lia).
  assert (UrlInput.UP UrlInput.keyboard <> UrlInput.DOWN UrlInput.keyboard)
    as Hk by discriminate.
  split; [auto |].
  exact (proj1 (down_and_up_are_inverse
                  UrlInput.keyboard (js "wp") _ 1 0 0 Ha Hs Hr Hk)).
Defined.



(** X15.  While the list is on screen and ready and one of its suggestions
    is selected, Enter hands the [url] of that suggestion and the
    suggestion itself to [onChange], once, after stopping the event, and
    Tab does the same without stopping the event and announces the
    selection; in both cases the list is closed and nothing stays
    selected. *)
Theorem enter_and_tab_select_the_suggestion :
  forall (keys : UrlInput.KeyCodes) (value : jsstring) (st : UrlInput.State)
         (i caret : Z) (props : list (string * JSVal)),
    UrlInput.listActive st ->
    UrlInput.selectedSuggestion st = Some i ->
    (0 <= i)%Z ->
    UrlInput.suggestions st !! Z.to_nat i = Some (VObj props) ->
    (UrlInput.ENTER keys <> UrlInput.UP keys ->
     UrlInput.ENTER keys <> UrlInput.DOWN keys ->
     UrlInput.ENTER keys <> UrlInput.TAB keys ->
     UrlInput.onKeyDownHandler keys value st
       (UrlInput.mkKeyEvent (UrlInput.ENTER keys) caret) =
     (Normal tt,
      [UrlInput.StopPropagation;
       UrlInput.OnChange (lookupProp "url" props) (VObj props);
       UrlInput.SetSelectedSuggestion None;
       UrlInput.SetShowSuggestions false])
     /\ UrlInput.press keys value (UrlInput.ENTER keys) caret st =
        UrlInput.mkState (UrlInput.suggestions st) false None
                         (UrlInput.loading st))
    /\ (UrlInput.TAB keys <> UrlInput.UP keys ->
        UrlInput.TAB keys <> UrlInput.DOWN keys ->
        UrlInput.onKeyDownHandler keys value st
          (UrlInput.mkKeyEvent (UrlInput.TAB keys) caret) =
        (Normal tt,
         [UrlInput.OnChange (lookupProp "url" props) (VObj props);
          UrlInput.SetSelectedSuggestion None;
          UrlInput.SetShowSuggestions false;
          UrlInput.Speak (js "Link selected.")])
        /\ UrlInput.press keys value (UrlInput.TAB keys) caret st =
           UrlInput.mkState (UrlInput.suggestions st) false None
                            (UrlInput.loading st)).
Proof.
  intros keys value st i caret props Hactive Hsel Hi Hat.
  assert (UrlInput.suggestionAt (UrlInput.suggestions st) (Some i)
          = VObj props) as Hsug.
  { unfold UrlInput.suggestionAt.
    destruct (Z.ltb_spec i 0); [lia |]. now apply nth_lookup_Some. }
  split.
  - intros H1 H2 H3.
    assert (UrlInput.onKeyDownHandler keys value st
              (UrlInput.mkKeyEvent (UrlInput.ENTER keys) caret) =
            (Normal tt,
             [UrlInput.StopPropagation;
              UrlInput.OnChange (lookupProp "url" props) (VObj props);
              UrlInput.SetSelectedSuggestion None;
              UrlInput.SetShowSuggestions false])) as Heq.
    { unfold UrlInput.onKeyDownHandler.
      rewrite (active_guard _ value Hactive). simpl UrlInput.keyCode.
      destruct (Z.eqb_spec (UrlInput.ENTER keys) (UrlInput.UP keys));
        [contradiction |].
      destruct (Z.eqb_spec (UrlInput.ENTER keys) (UrlInput.DOWN keys));
        [contradiction |].
      destruct (Z.eqb_spec (UrlInput.ENTER keys) (UrlInput.TAB keys));
        [contradiction |].
      rewrite Z.eqb_refl, Hsel, Hsug. reflexivity. }
    split; [exact Heq |]. unfold UrlInput.press. now rewrite Heq.
  - intros H1 H2.
    assert (UrlInput.onKeyDownHandler keys value st
              (UrlInput.mkKeyEvent (UrlInput.TAB keys) caret) =
            (Normal tt,
             [UrlInput.OnChange (lookupProp "url" props) (VObj props);
              UrlInput.SetSelectedSuggestion None;
              UrlInput.SetShowSuggestions false;
              UrlInput.Speak (js "Link selected.")])) as Heq.
    { unfold UrlInput.onKeyDownHandler.
      rewrite (active_guard _ value Hactive). simpl UrlInput.keyCode.
      destruct (Z.eqb_spec (UrlInput.TAB keys) (UrlInput.UP keys));
        [contradiction |].
      destruct (Z.eqb_spec (UrlInput.TAB keys) (UrlInput.DOWN keys));
        [contradiction |].
      rewrite Z.eqb_refl, Hsel, Hsug. reflexivity. }
    split; [exact Heq |]. unfold UrlInput.press. now rewrite Heq.
Qed.

Lemma enter_and_tab_select_the_suggestion_witness :
  (UrlInput.listActive UrlInput.sampleState
   /\ UrlInput.selectedSuggestion UrlInput.sampleState = Some 1%Z
   /\ (0 <= 1)%Z
   /\ UrlInput.suggestions UrlInput.sampleState !! Z.to_nat 1
      = Some (VObj [("url"%string, VStr (js "/b"))])
   /\ UrlInput.ENTER UrlInput.keyboard <> UrlInput.UP UrlInput.keyboard
   /\ UrlInput.ENTER UrlInput.keyboard <> UrlInput.DOWN UrlInput.keyboard
   /\ UrlInput.ENTER UrlInput.keyboard <> UrlInput.TAB UrlInput.keyboard)
  /\ UrlInput.press UrlInput.keyboard (js "wp") 13 0 UrlInput.sampleState =
     UrlInput.mkState (UrlInput.suggestions UrlInput.sampleState) false None
                      false.
Proof.
  assert (UrlInput.listActive UrlInput.sampleState) as Ha
    by (repeat split; discriminate).
  assert (UrlInput.selectedSuggestion UrlInput.sampleState = Some 1%Z) as Hs
    by reflexivity.
  assert (0 <= 1)%Z as Hi by lia.
  assert (UrlInput.suggestions UrlInput.sampleState !! Z.to_nat 1
          = Some (VObj [("url"%string, VStr (js "/b"))])) as Hat
    by reflexivity.
  assert (UrlInput.ENTER UrlInput.keyboard <> UrlInput.UP UrlInput.keyboard)
    as H1 by discriminate.
  assert (UrlInput.ENTER UrlInput.keyboard <> UrlInput.DOWN UrlInput.keyboard)
    as H2 by discriminate.
  assert (UrlInput.ENTER UrlInput.keyboard <> UrlInput.TAB UrlInput.keyboard)
    as H3 by discriminate.
  split; [auto 10 |].
  exact (proj2 (proj1 (enter_and_tab_select_the_suggestion
                         UrlInput.keyboard (js "wp") _ 1 0 _ Ha Hs Hi Hat)
                      H1 H2 H3)).
Defined.

(** X16.  The guard for a list that is not shown applies only while the
    input is not empty.  With an empty input, no suggestions and nothing
    selected, the up arrow selects index -1, which no list has; and
    whenever the handler reaches its second part (the list is on screen and
    ready, or the input is empty) with a selection outside the list, Enter
    and Tab throw a TypeError on reading [url] of [undefined], Enter after
    stopping the event, both before [onChange] is reached. *)
Theorem selection_outside_the_list_throws :
  forall (keys : UrlInput.KeyCodes) (value : jsstring) (st : UrlInput.State)
         (z caret : Z),
    UrlInput.listActive st \/ value = [] ->
    UrlInput.selectedSuggestion st = Some z ->
    (z < 0 \/ UrlInput.lengthZ (UrlInput.suggestions st) <= z)%Z ->
    UrlInput.ENTER keys <> UrlInput.UP keys ->
    UrlInput.ENTER keys <> UrlInput.DOWN keys ->
    UrlInput.ENTER keys <> UrlInput.TAB keys ->
    UrlInput.TAB keys <> UrlInput.UP keys ->
    UrlInput.TAB keys <> UrlInput.DOWN keys ->
    UrlInput.onKeyDownHandler keys value st
      (UrlInput.mkKeyEvent (UrlInput.ENTER keys) caret) =
      (Throw TypeError, [UrlInput.StopPropagation])
    /\ UrlInput.onKeyDownHandler keys value st
         (UrlInput.mkKeyEvent (UrlInput.TAB keys) caret) =
       (Throw TypeError, [])
    /\ forall show load caret',
        UrlInput.press keys [] (UrlInput.UP keys) caret'
          (UrlInput.mkState [] show None load) =
        UrlInput.mkState [] show (Some (-1)%Z) load.
Proof.
  intros keys value st z caret Hreach Hsel Hout He1 He2 He3 Ht1 Ht2.
  pose proof (suggestionAt_outside _ _ Hout) as Hsug.
  split; [| split].
  - unfold UrlInput.onKeyDownHandler.
    rewrite (unguarded _ _ Hreach). simpl UrlInput.keyCode.
    destruct (Z.eqb_spec (UrlInput.ENTER keys) (UrlInput.UP keys));
      [contradiction |].
    destruct (Z.eqb_spec (UrlInput.ENTER keys) (UrlInput.DOWN keys));
      [contradiction |].
    destruct (Z.eqb_spec (UrlInput.ENTER keys) (UrlInput.TAB keys));
      [contradiction |].
    rewrite Z.eqb_refl, Hsel, Hsug. reflexivity.
  - unfold UrlInput.onKeyDownHandler.
    rewrite (unguarded _ _ Hreach). simpl UrlInput.keyCode.
    destruct (Z.eqb_spec (UrlInput.TAB keys) (UrlInput.UP keys));
      [contradiction |].
    destruct (Z.eqb_spec (UrlInput.TAB keys) (UrlInput.DOWN keys));
      [contradiction |].
    rewrite Z.eqb_refl, Hsel, Hsug. reflexivity.
  - intros show load caret'. unfold UrlInput.press, UrlInput.onKeyDownHandler.
    simpl. rewrite andb_false_r, Z.eqb_refl. reflexivity.
Qed.

Lemma selection_outside_the_list_throws_witness :
  ((UrlInput.listActive (UrlInput.mkState [] false (Some (-1)%Z) false)
    \/ @nil N = [])
   /\ UrlInput.selectedSuggestion
        (UrlInput.mkState [] false (Some (-1)%Z) false) = Some (-1)%Z
   /\ (-1 < 0
       \/ UrlInput.lengthZ
            (UrlInput.suggestions
               (UrlInput.mkState [] false (Some (-1)%Z) false)) <= -1)%Z
   /\ UrlInput.ENTER UrlInput.keyboard <> UrlInput.UP UrlInput.keyboard
   /\ UrlInput.ENTER UrlInput.keyboard <> UrlInput.DOWN UrlInput.keyboard
   /\ UrlInput.ENTER UrlInput.keyboard <> UrlInput.TAB UrlInput.keyboard
   /\ UrlInput.TAB UrlInput.keyboard <> UrlInput.UP UrlInput.keyboard
   /\ UrlInput.TAB UrlInput.keyboard <> UrlInput.DOWN UrlInput.keyboard)
  /\ UrlInput.onKeyDownHandler UrlInput.keyboard []
       (UrlInput.mkState [] false (Some (-1)%Z) false)
       (UrlInput.mkKeyEvent 13 0)
     = (Throw TypeError, [UrlInput.StopPropagation]).
Proof.
  assert (UrlInput.listActive (UrlInput.mkState [] false (Some (-1)%Z) false)
          \/ @nil N = []) as Hreach by (right; reflexivity).
  assert (UrlInput.selectedSuggestion
            (UrlInput.mkState [] false (Some (-1)%Z) false) = Some (-1)%Z)
    as Hsel by reflexivity.
  assert (-1 < 0
          \/ UrlInput.lengthZ
               (UrlInput.suggestions
                  (UrlInput.mkState [] false (Some (-1)%Z) false)) <= -1)%Z
    as Hout by (left; lia).
  assert (UrlInput.ENTER UrlInput.keyboard <> UrlInput.UP UrlInput.keyboard)
    as H1 by discriminate.
  assert (UrlInput.ENTER UrlInput.keyboard <> UrlInput.DOWN UrlInput.keyboard)
    as H2 by discriminate.
  assert (UrlInput.ENTER UrlInput.keyboard <> UrlInput.TAB UrlInput.keyboard)
    as H3 by discriminate.
  assert (UrlInput.TAB UrlInput.keyboard <> UrlInput.UP UrlInput.keyboard)
    as H4 by discriminate.
  assert (UrlInput.TAB UrlInput.keyboard <> UrlInput.DOWN UrlInput.keyboard)
    as H5 by discriminate.
  split; [auto 12 |].
  exact (proj1 (selection_outside_the_list_throws
                  UrlInput.keyboard [] _ (-1) 0 Hreach Hsel Hout
                  H1 H2 H3 H4 H5)).
Defined.
